(* ===== verification/_CoqProject ===== *)
-Q . S2P
Prelude.v
Unicode.v
Wrap.v
WrapLoop.v
Layout.v
Cursor.v
Frame.v
Render.v
Screen.v
StatusBar.v
Session.v
