(* ===== verification/Prelude.v ===== *)
(** * A verified model of the terminal pane of jerm

    The program is the terminal pane of jerm, an interactive shell front
    end written in Rust on top of ratatui.  Its only source file here,
    [src/ui/terminal.rs], holds three functions:

    - [wrap_line] (lines 13-39) turns one logical line into visual lines
      of at most [width] terminal columns.  It scans the characters
      greedily, with the column width of each character taken from the
      [unicode-width] crate.
    - [render_terminal] (lines 42-114) is the drawing entry point.  It
      wraps every output line and the live input line (prompt ++ input),
      scrolls so that the bottom is visible, hands the visible lines to a
      ratatui [Paragraph], and computes the screen cell of the text cursor
      from the cursor's character offset in the input buffer.
    - [render_status_bar] (lines 118-139) formats the mode and directory.

    The components interact only through values.  [render_terminal] calls
    [wrap_line] once per logical line.  The cursor computation reads two
    values of the layout: [input_line_start] and [scroll].  The drawing
    surface (ratatui's [Frame]) is called through three effects:
    [render_widget] of the border block, [render_widget] of the paragraph,
    and [set_cursor].

    ** Files, in dependency order

    - [Prelude] (this file): the scope [jerm_scope], the model of Rust's
      [Option::unwrap_or] and [usize::saturating_sub], and generic lemmas
      on lists and natural numbers.  It also holds the hint databases
      [jerm] (resolve) and [jerm_len] (length rewriting), and the tactic
      [len].
    - [Unicode]: Rust [char] as its scalar value ([N]), and the interface
      of the [unicode-width] crate as the class [UnicodeWidth]
      ([UnicodeWidthChar::width] and [UnicodeWidthStr::width]).  Its laws
      are the class [WidthLaws]: the width of a string is the sum of the
      widths of its characters (the crate's contract up to 0.1.12), no
      character is wider than two columns, and the C0 controls other
      than NUL have no width.  The file also models UTF-8 byte offsets:
      [char_indices], byte slicing [&s[..i]] as a function that fails
      (panics) off a character boundary, and the cursor's byte-offset
      computation of lines 89-93.  A concrete instance
      [unicode_width_model] is used by the witnesses.
    - [Wrap]: [wrap_line] as a fold of the loop body [wrap_step] over the
      characters.  The loop state [WrapState] mirrors the locals
      [result], [current_line] and [current_width].  The file also gives
      the abstract specification [wrap_spec] of greedy wrapping and proves
      that [wrap_line] is its unique solution.
    - [WrapLoop]: the prefix property of the loop: reading more
      characters keeps the rows already closed and extends the current
      one ([fold_wrap_prefix]).
    - [Layout]: lines 51-80 of [render_terminal]: the visual lines, the
      start of the input, the scroll offset and the visible lines.
    - [Cursor]: lines 87-111, the cursor cell and the visibility test,
      and [next_cell], the cell where the loop of [wrap_line] puts the
      character under the cursor.
    - [Frame]: ratatui's [Rect] with u16 coordinates and checked or
      wrapping u16 addition, [Block::inner], the drawing effects as a
      list of [FrameOp], the [join("\n")] of line 83 and the rows
      ratatui's [Text::raw] makes of a text ([str::lines]).
    - [Render]: the whole of [render_terminal] as a function from the
      area and the [App] snapshot to the list of frame operations, and the
      theorems on the operations it returns.
    - [Screen]: what a frame shows, modelled from the spec's output
      contract and ratatui's behaviour, because ratatui is a library the
      sources only call.  [paint] replays the frame operations on an
      empty screen, and [screen_cell] reads the character shown in a
      cell: a paragraph paints its rows from the top-left of its area,
      a row is cut before the first character that does not fit the
      area's width, and a character is drawn in the first cell it
      covers.
    - [StatusBar]: [render_status_bar], and the cells it shows.
    - [Session]: successive renders.  Between two renders the
      application state changes by events, modelled from the spec's
      input contract because the state holder is not among the sources:
      output lines are only appended, and the input, the cursor, the
      mode, the directory and the prompt change arbitrarily.

    ** What the theorems show

    - Wrap: [wrap_line_spec] shows that [wrap_line] satisfies the
      greedy specification [wrap_spec] and is its only solution.  The
      corollaries:
      - the characters are kept in order ([wrap_line_concat]);
      - every visual line fits the width, except a lone character wider
        than the width ([wrap_line_fits]);
      - the first visual line is empty exactly when the first character
        is wider than the width ([wrap_line_first_empty]);
      - the loop counter stays below [max width 2] ([wrap_counter_bound]);
      - for one-column text the result is the fixed-size chunking
        [chunks] ([wrap_line_narrow_chunks]);
      - there is at least one visual line and at most one more than the
        characters ([wrap_line_length_bounds]);
      - a line no wider than the width is one visual line, unchanged
        ([wrap_line_fit_single]);
      - widening the pane never adds rows ([wrap_line_length_mono]),
        because the loop at the wider width stays ahead.
    - WrapLoop: wrapping is incremental: appending characters keeps the
      closed rows and only extends the last one ([wrap_line_prefix]).
    - Layout: the input's visual lines come last, from
      [input_line_start] on ([layout_input_last]).  The visible lines
      are the last [min total height] lines ([layout_visible_suffix]).
      The input is fully visible whenever it fits
      ([layout_scroll_bottom]).
    - Cursor: the byte slicing never panics and keeps the first
      [cursor_pos] characters ([input_before_cursor_take]).  For
      one-column text the cursor cell is where [wrap_step] would put the
      next character ([cursor_plan_narrow_refines]), the cursor's row
      and column index the character under the cursor
      ([cursor_plan_narrow_cell]), and at the end of the text the cursor
      sits right after the last character, except when the text fills
      its rows exactly ([cursor_plan_narrow_end]).  For any text and a
      width of at least 2, the division agrees with the wrapping exactly
      when every row closed before the cursor is full
      ([cursor_plan_agrees_iff]); counting cells row by row, the
      division's cell lies before the wrapping's by exactly the columns
      the closed rows leave blank.
    - Render: with characters at most one column wide the function
      never panics and the cursor stays in the inner area
      ([render_terminal_narrow_safe]).  A release build is total, and it
      draws the border block first and the paragraph second
      ([render_terminal_release_total]).  A zero-height pane shows
      nothing and no cursor ([render_terminal_zero_height]).  When the
      cursor's line is not scrolled off, the pane row it is drawn on
      shows that line ([cursor_row_shows_cursor_line]).  A debug build
      panics exactly when the row addition of line 108 overflows
      ([render_terminal_debug_panics]), and wherever it does not panic
      it draws what the release build draws
      ([render_terminal_debug_agrees]).
    - Screen: the refinement theorem [render_terminal_cursor_on_char].
      When the input line fits the pane, no character is wider than the
      pane, the rows closed before the cursor are full and the character
      under the cursor fits at the next cell (all true for one-column
      text), the renderer returns, sets the cursor, and the cell under
      the cursor shows the character at the cursor offset.  For text
      without newlines, pane row [i] shows visual line [scroll + i], cell
      by cell ([render_terminal_pane_rows]).  Whenever the renderer
      returns, for text of any width, any cursor it sets in a pane at
      least one column wide is a cell of the pane
      ([render_terminal_cursor_in_pane]).
    - StatusBar: the bar shows a space, the mode's label, two spaces and
      the directory on the top row of its area
      ([render_status_bar_cells]).
    - Session: liveness: once [r + h] more output lines are emitted,
      row [r] is off a pane [h] rows high and stays off, whatever edits
      the input sees, and a row of the output stays the same row
      ([output_row_scrolls_off]).
    - Findings, each a theorem for every input it concerns:
      - whenever the cursor's line has scrolled off the top, it is
        clamped to row 0 and drawn ([render_terminal_cursor_clamped]);
      - the cursor after one-column text that fills its rows exactly is
        hidden when the pane is full
        ([render_terminal_cursor_hidden_full_row]);
      - a row closed early by a wide character shifts every later
        cursor position ([cursor_plan_agrees_iff]), and the cursor
        before a wide character that did not fit is drawn on a blank
        cell while the character starts the next row
        ([render_terminal_wide_no_fit]);
      - the u16 row addition can overflow in a debug build
        ([render_terminal_debug_panics]);
      - a zero-width pane wraps at one column rather than taking the
        degenerate path, and any cursor it gets is outside the pane
        ([render_terminal_zero_width_cursor]).

    ** Plan for the next steps

    What the sources hold is modelled; what remains is outside them:
    - painting of the border glyphs and of the block's title, once
      ratatui's drawing of a [Block] is modelled;
    - grapheme clusters, which ratatui draws in one cell where the
      model draws each character;
    - the key bindings of the application state holder, which would
      replace the arbitrary [Edit] events of [Session].

    ** Bounds and choices

    The model has no fuel: every loop of the source is a [fold_left] or a
    structural recursion over a list, so every definition is total.  u16
    values are [Z] with their range written out.  [usize] values are
    [nat]: the only [usize] arithmetic that could overflow is
    [current_width + char_width], which [wrap_counter_bound] bounds by
    [max width 2 + 2].  The reference [chunks] of [Wrap] recurses on the
    length of the rest of the line, with Equations' well-founded
    recursion.  The theorems that use [WidthLaws] hold for the
    [unicode-width] crate up to 0.1.12, whose string width is the sum of
    the character widths.

    ** Not modelled

    The [App] state holder and the key handling of [src/app.rs] are not
    in the sources: the snapshot [App] and the events of [Session] are
    modelled from the spec, and the key bindings themselves (which key
    edits the input how) are not modelled; the events change the input
    arbitrarily.  The border glyphs, the title and the styles are kept
    as data ([terminal_block], the status bar's spans) but not painted
    on the screen model.
*)

From stdpp Require Import base list numbers.
From Stdlib Require Import Lia.

Declare Scope jerm_scope.
Delimit Scope jerm_scope with jerm.
Open Scope jerm_scope.

(** Rust's [Option::unwrap_or]. *)
Definition unwrap_or {A} (o : option A) (d : A) : A :=
  match o with Some x => x | None => d end.

(** Rust's [usize::saturating_sub]: subtraction clamped at zero. *)
Definition saturating_sub (a b : nat) : nat := a - b.

Notation "a ⊖ b" := (saturating_sub a b) (at level 50, left associativity) : jerm_scope.

Create HintDb jerm discriminated.
Create Rewrite HintDb jerm_len.

#[export] Hint Rewrite @length_app @length_drop @length_take @length_cons
  @length_nil @length_map @sum_list_with_app : jerm_len.

Ltac len := autorewrite with jerm_len in *; simpl in *; try lia.

(** ** Generic lemmas on lists *)

Lemma concat_snoc {A} (ls : list (list A)) v : concat (ls ++ [v]) = concat ls ++ v.
Proof. rewrite concat_app. simpl. by rewrite app_nil_r. Qed.

Lemma snoc_eq_inv {A} (l1 l2 : list A) x1 x2 :
  l1 ++ [x1] = l2 ++ [x2] -> l1 = l2 /\ x1 = x2.
Proof. intros H. apply app_inj_tail in H. done. Qed.

Lemma list_snoc_cases {A} (l : list A) : l = [] \/ exists l' x, l = l' ++ [x].
Proof.
  destruct l as [|a l] using rev_ind; [by left|right; eauto].
Qed.

Lemma not_elem_of_Forall_neq {A} (x : A) (l : list A) : x ∉ l <-> Forall (fun y => y <> x) l.
Proof.
  rewrite List.Forall_forall.
  split; [intros Hx y Hy%list_elem_of_In ->|intros Hl Hx%list_elem_of_In; apply (Hl x)]; done.
Qed.

Lemma last_drop {A} n (l : list A) : n < length l -> list.last (drop n l) = list.last l.
Proof.
  destruct l as [|x l _] using rev_ind; [simpl; lia|]. rewrite length_app. simpl. intros Hn.
  rewrite drop_app_le by lia. by rewrite !last_snoc.
Qed.

(** ** Division for the cursor arithmetic *)

Lemma div_mod_unique_pos (w q r a : nat) :
  r < w -> a = w * q + r -> a / w = q /\ a mod w = r.
Proof.
  intros Hr Ha. split; symmetry; [eapply Nat.div_unique|eapply Nat.mod_unique]; eauto.
Qed.
