(* ===== verification/Unicode.v ===== *)
(** * Characters, column widths and UTF-8 byte offsets

    A Rust [char] is a Unicode scalar value, modelled as its code point
    [uchar := N].  A Rust [String] is modelled as the list of its
    characters.  The UTF-8 byte length of each character is kept
    because [render_terminal] slices the input by byte offset
    (src/ui/terminal.rs, lines 89-93).

    The column widths come from the [unicode-width] crate, which the
    source only calls.  The crate is the interface [UnicodeWidth]: the
    two methods the source uses, [UnicodeWidthChar::width] (line 23) and
    [UnicodeWidthStr::width] (lines 88 and 94).  The properties the
    layout relies on are the class [WidthLaws].  The concrete instance
    [unicode_width_model] follows the crate's 0.1 tables for the ranges
    the witnesses use: ASCII, C0/C1 controls, combining diacritics, and
    the main East-Asian wide blocks. *)

From stdpp Require Import base list numbers.
From Stdlib Require Import Lia.
From S2P Require Import Prelude.

Definition uchar := N.

(** The interface of the [unicode-width] crate.  [char_width] is
    [UnicodeWidthChar::width], which returns [None] for control
    characters.  [str_width] is [UnicodeWidthStr::width]. *)
Class UnicodeWidth := {
  char_width : uchar -> option nat;
  str_width : list uchar -> nat
}.

Section Widths.
Context `{UnicodeWidth}.

(** [ch.width().unwrap_or(0)], line 23. *)
Definition char_cols (c : uchar) : nat := unwrap_or (char_width c) 0.

(** Display width of a visual line, as [wrap_line] accumulates it. *)
Definition line_width (v : list uchar) : nat := sum_list_with char_cols v.

Lemma line_width_nil : line_width [] = 0.
Proof. done. Qed.

Lemma line_width_cons c v : line_width (c :: v) = char_cols c + line_width v.
Proof. done. Qed.

Lemma line_width_app v1 v2 : line_width (v1 ++ v2) = line_width v1 + line_width v2.
Proof. apply sum_list_with_app. Qed.

Lemma line_width_snoc v c : line_width (v ++ [c]) = line_width v + char_cols c.
Proof. rewrite line_width_app. unfold line_width. simpl. lia. Qed.
End Widths.

#[global] Arguments line_width {_} _ : simpl never.
#[export] Hint Rewrite @line_width_nil @line_width_cons @line_width_app : jerm_len.

(** The contract of the crate that the layout relies on.  A string is
    as wide as the sum of its characters (the 0.1 series of the crate
    computes [UnicodeWidthStr::width] this way up to 0.1.12; from
    0.1.13 on, some sequences such as emoji joined by U+200D are
    narrower than the sum, and the theorems that assume this law are
    about the 0.1.12 contract).  No character is wider than two columns.
    The C0 control characters other than NUL, among them the newline
    and the carriage return, have no width (every release of the
    crate). *)
Class WidthLaws `{UnicodeWidth} : Prop := {
  str_width_sum : forall s, str_width s = line_width s;
  char_width_le_2 : forall c n, char_width c = Some n -> n <= 2;
  char_width_control : forall c, (1 <= c < 0x20)%N -> char_width c = None
}.

(** ** UTF-8 byte offsets *)

(** Number of bytes of the UTF-8 encoding of a scalar value. *)
Definition utf8_len (c : uchar) : nat :=
  if decide (c < 0x80)%N then 1
  else if decide (c < 0x800)%N then 2
  else if decide (c < 0x10000)%N then 3
  else 4.

(** [str::len]: the byte length. *)
Definition byte_len (s : list uchar) : nat := sum_list_with utf8_len s.

(** [str::char_indices]: each character with its starting byte offset. *)
Fixpoint char_indices_from (pos : nat) (s : list uchar) : list (nat * uchar) :=
  match s with
  | [] => []
  | c :: s' => (pos, c) :: char_indices_from (pos + utf8_len c) s'
  end.

Definition char_indices (s : list uchar) : list (nat * uchar) := char_indices_from 0 s.

(** The range index [&s[..i]].  Rust panics when [i] is past the end or
    falls inside the encoding of a character: that is [None] here. *)
Fixpoint slice_to (s : list uchar) (i : nat) : option (list uchar) :=
  match s with
  | [] => if decide (i = 0) then Some [] else None
  | c :: s' =>
      if decide (i = 0) then Some []
      else if decide (utf8_len c <= i) then cons c <$> slice_to s' (i - utf8_len c)
      else None
  end.

(** Lines 89-93: the part of the input before the cursor,
    [&app.input[..app.input.char_indices().nth(app.cursor_pos)
       .map(|(pos, _)| pos).unwrap_or(app.input.len())]]. *)
Definition input_before_cursor (input : list uchar) (cursor_pos : nat) : option (list uchar) :=
  slice_to input (unwrap_or (fst <$> char_indices input !! cursor_pos) (byte_len input)).

(** ** A concrete width table for the witnesses *)

Definition in_range (lo hi c : N) : bool := bool_decide (lo <= c <= hi)%N.

Definition wide_char (c : uchar) : bool :=
  in_range 0x1100 0x115F c || in_range 0x2E80 0x303E c || in_range 0x3041 0x33FF c
  || in_range 0x3400 0x4DBF c || in_range 0x4E00 0x9FFF c || in_range 0xA000 0xA4CF c
  || in_range 0xAC00 0xD7A3 c || in_range 0xF900 0xFAFF c || in_range 0xFE30 0xFE4F c
  || in_range 0xFF00 0xFF60 c || in_range 0xFFE0 0xFFE6 c || in_range 0x1F300 0x1F64F c
  || in_range 0x20000 0x3FFFD c.

Definition model_char_width (c : uchar) : option nat :=
  if decide (c = 0)%N then Some 0
  else if decide (c < 0x20)%N then None
  else if decide (c < 0x7F)%N then Some 1
  else if decide (c < 0xA0)%N then None
  else if in_range 0x300 0x36F c then Some 0
  else if wide_char c then Some 2
  else Some 1.

#[export] Instance unicode_width_model : UnicodeWidth := {|
  char_width := model_char_width;
  str_width := sum_list_with (fun c => unwrap_or (model_char_width c) 0)
|}.

(** ** Lemmas *)

Lemma utf8_len_pos c : 1 <= utf8_len c.
Proof. unfold utf8_len. repeat case_decide; lia. Qed.

#[export] Hint Resolve utf8_len_pos : jerm.

Lemma byte_len_cons c s : byte_len (c :: s) = utf8_len c + byte_len s.
Proof. done. Qed.

Lemma char_indices_from_lookup pos s k :
  char_indices_from pos s !! k =
    (fun c => (pos + byte_len (take k s), c)) <$> s !! k.
Proof.
  revert pos k. induction s as [|c s IH]; intros pos [|k]; simpl; try done.
  - by rewrite Nat.add_0_r.
  - rewrite IH. destruct (s !! k); simpl; [|done].
    unfold byte_len. simpl. do 2 f_equal. lia.
Qed.

Lemma slice_to_take s k : slice_to s (byte_len (take k s)) = Some (take k s).
Proof.
  revert k. induction s as [|c s IH]; intros [|k]; try done.
  cbn [take]. rewrite byte_len_cons. cbn [slice_to].
  assert (1 <= utf8_len c) by auto with jerm.
  rewrite decide_False by lia. rewrite decide_True by lia.
  rewrite Nat.add_comm, Nat.add_sub, IH. done.
Qed.

Lemma width_model_laws : @WidthLaws unicode_width_model.
Proof.
  split.
  - done.
  - intros c n. simpl. unfold model_char_width.
    repeat case_decide; try destruct (in_range _ _ _); try destruct (wide_char _);
      intros Hc; first [discriminate Hc | injection Hc as <-; lia].
  - intros c Hc. simpl. unfold model_char_width.
    rewrite decide_False by lia. by rewrite decide_True by lia.
Qed.

#[export] Existing Instance width_model_laws.

(** The byte index the slice ends at is the byte length of the first
    [cursor_pos] characters: a character boundary. *)
Lemma cursor_byte_index input k :
  unwrap_or (fst <$> char_indices input !! k) (byte_len input) = byte_len (take k input).
Proof.
  unfold char_indices. rewrite char_indices_from_lookup.
  destruct (input !! k) eqn:E; simpl; [done|].
  apply lookup_ge_None in E. by rewrite take_ge.
Qed.

Lemma input_before_cursor_spec input k : input_before_cursor input k = Some (take k input).
Proof. unfold input_before_cursor. rewrite cursor_byte_index. apply slice_to_take. Qed.

(** C4: the byte slicing of lines 89-93 never panics.  The slice ends at
    the byte offset of the [cursor_pos]-th character (the byte length of
    the input when the offset is past the end), so it holds the first
    [cursor_pos] characters of the input. *)
Theorem input_before_cursor_take (input : list uchar) (cursor_pos : nat) :
  unwrap_or (fst <$> char_indices input !! cursor_pos) (byte_len input) =
    byte_len (take cursor_pos input) /\
  input_before_cursor input cursor_pos = Some (take cursor_pos input).
Proof. split; [apply cursor_byte_index|apply input_before_cursor_spec]. Qed.
