(* ===== verification/Wrap.v ===== *)
(** * The wrapper: [wrap_line] (src/ui/terminal.rs, lines 13-39)

    The loop of [wrap_line] keeps three locals: [result],
    [current_line] and [current_width].  They form the record
    [WrapState].  One iteration of the [for ch in line.chars()] loop is
    [wrap_step], and the loop is a [fold_left] of it.

    The abstract specification [wrap_spec] states greedy wrapping line
    by line:
    - the visual lines concatenate to the logical line;
    - every character of the first line fits after the ones before it;
    - every later line starts with the character that did not fit, and
      the characters after it fit;
    - each break happens exactly where the next character would not
      have fit.
    [wrap_line_spec] proves that [wrap_line] is the unique list
    satisfying it.  The other theorems are corollaries: completeness,
    the width bound, the leading empty line, the bound on the loop
    counter, the chunking of one-column text and the bounds on the
    number of rows.  Two more follow the loop directly: a line that fits
    is not wrapped, and at a wider width the loop stays ahead, so
    widening never adds rows. *)

From stdpp Require Import base list numbers.
From Stdlib Require Import Lia Btauto.
From Equations Require Import Equations.
From S2P Require Import Prelude Unicode.

(** The reference for one-column text: cut the line into pieces of
    [w] characters, the last piece holding the rest.  An empty line
    gives one empty piece. *)
Equations? chunks {A} (w : nat) (l : list A) : list (list A) by wf (length l) lt :=
  chunks w l with decide (w = 0 \/ length l <= w) => {
    | left _ := [l];
    | right _ := take w l :: chunks w (drop w l) }.
Proof. len. Qed.

Lemma chunks_step {A} w (l : list A) :
  chunks w l = if decide (w = 0 \/ length l <= w) then [l] else take w l :: chunks w (drop w l).
Proof. rewrite chunks_equation_1. by destruct (decide _). Qed.

(** Row [i] of the chunking starts at character [i * w]; it exists when
    it is the first row or starts inside the line. *)
Lemma chunks_lookup {A} w (l : list A) i :
  0 < w ->
  chunks w l !! i =
    if decide (i = 0 \/ i * w < length l) then Some (take w (drop (i * w) l)) else None.
Proof.
  intros Hw. remember (length l) as n eqn:En. revert l i En.
  induction n as [n IH] using lt_wf_ind. intros l i ->. rewrite chunks_step.
  destruct (decide (w = 0 \/ length l <= w)) as [Hle|Hgt]; destruct i as [|i]; simpl.
  - rewrite drop_0, take_ge by lia. done.
  - rewrite decide_False by lia. done.
  - done.
  - rewrite (IH (length (drop w l))) by len. rewrite drop_drop, length_drop.
    replace (w + i * w) with (i * w + w) by lia.
    by repeat case_decide; try lia.
Qed.

Section Wrapper.
Context `{UnicodeWidth}.

(** The locals of the loop. *)
Record WrapState := mkWrapState {
  result : list (list uchar);
  current_line : list uchar;
  current_width : nat
}.

Definition wrap_init : WrapState := mkWrapState [] [] 0.

(** One iteration of the loop, lines 23-33. *)
Definition wrap_step (width : nat) (st : WrapState) (ch : uchar) : WrapState :=
  let char_width := char_cols ch in
  let st :=
    if decide (width < current_width st + char_width)
    then mkWrapState (result st ++ [current_line st]) [] 0
    else st in
  mkWrapState (result st) (current_line st ++ [ch]) (current_width st + char_width).

(** [wrap_line], lines 13-39: the early return for width zero, the
    loop, and the final push of the last line. *)
Definition wrap_line (line : list uchar) (width : nat) : list (list uchar) :=
  if decide (width = 0) then [[]]
  else
    let st := fold_left (wrap_step width) line wrap_init in
    result st ++ [current_line st].

(** ** The abstract specification *)

(** Starting at column [acc], every character of [v] fits. *)
Fixpoint fits_from (width acc : nat) (v : list uchar) : bool :=
  match v with
  | [] => true
  | c :: v' => bool_decide (acc + char_cols c <= width) && fits_from width (acc + char_cols c) v'
  end.

(** A line after a break starts with the character that caused it. *)
Definition continuation_fits (width : nat) (v : list uchar) : bool :=
  match v with
  | [] => false
  | c :: v' => fits_from width (char_cols c) v'
  end.

(** The break between [a] and [b] is forced: the first character of
    [b] would not have fit after [a]. *)
Definition break_ok (width : nat) (a b : list uchar) : bool :=
  match b with
  | [] => false
  | c :: _ => bool_decide (width < line_width a + char_cols c)
  end.

Fixpoint breaks_greedy (width : nat) (ls : list (list uchar)) : bool :=
  match ls with
  | a :: ((b :: _) as rest) => break_ok width a b && breaks_greedy width rest
  | _ => true
  end.

Definition lines_ok (width : nat) (ls : list (list uchar)) : bool :=
  match ls with
  | [] => false
  | first :: rest =>
      fits_from width 0 first && forallb (continuation_fits width) rest
      && breaks_greedy width ls
  end.

Definition wrap_spec (width : nat) (line : list uchar) (ls : list (list uchar)) : Prop :=
  concat ls = line /\ lines_ok width ls = true.

(** ** Lemmas on the specification *)

Lemma fits_from_snoc w acc v c :
  fits_from w acc (v ++ [c]) =
    fits_from w acc v && bool_decide (acc + line_width v + char_cols c <= w).
Proof.
  revert acc. induction v as [|c' v IH]; intros acc; cbn [fits_from app].
  - rewrite line_width_nil, Nat.add_0_r, andb_true_r. done.
  - rewrite IH, line_width_cons, Nat.add_assoc. by destruct (bool_decide _).
Qed.

(** What a fitting line costs: it ends within the width. *)
Lemma fits_from_width w acc v :
  fits_from w acc v = true -> v = [] \/ acc + line_width v <= w.
Proof.
  revert acc. induction v as [|c v IH]; intros acc; cbn [fits_from]; [by left|].
  intros [Hc Hv]%andb_prop. apply bool_decide_eq_true in Hc. right.
  rewrite line_width_cons.
  destruct (IH _ Hv) as [->|Hw]; [rewrite line_width_nil|]; lia.
Qed.

Lemma breaks_greedy_snoc2 w ls a b :
  breaks_greedy w (ls ++ [a; b]) = breaks_greedy w (ls ++ [a]) && break_ok w a b.
Proof.
  induction ls as [|x ls IH]; simpl; [by rewrite andb_true_r|].
  destruct ls as [|y ls]; simpl in *; [by destruct (break_ok w x a), (break_ok w a b)|].
  rewrite IH. by rewrite andb_assoc.
Qed.

(** Adding a line after a break: the new line must be a continuation
    and the break must be forced. *)
Lemma lines_ok_snoc2 w R a b :
  lines_ok w (R ++ [a; b]) =
    lines_ok w (R ++ [a]) && continuation_fits w b && break_ok w a b.
Proof.
  destruct R as [|f rest]; simpl.
  - destruct (fits_from w 0 a), (continuation_fits w b), (break_ok w a b); done.
  - rewrite !forallb_app. simpl.
    pose proof (breaks_greedy_snoc2 w (f :: rest) a b) as Hg. simpl in Hg.
    rewrite Hg. btauto.
Qed.

Lemma lines_ok_single w v : lines_ok w [v] = fits_from w 0 v.
Proof. simpl. by destruct (fits_from w 0 v). Qed.

Lemma continuation_fits_snoc w v c :
  v <> [] ->
  continuation_fits w (v ++ [c]) =
    continuation_fits w v && bool_decide (line_width v + char_cols c <= w).
Proof.
  destruct v as [|c0 v]; [done|]. intros _. simpl.
  rewrite fits_from_snoc, line_width_cons. done.
Qed.

Lemma break_ok_extend w a v c : v <> [] -> break_ok w a (v ++ [c]) = break_ok w a v.
Proof. destruct v; done. Qed.

Lemma continuation_fits_nonempty w v : continuation_fits w v = true -> v <> [].
Proof. by destruct v. Qed.

#[local] Hint Resolve continuation_fits_nonempty : jerm.

(** Appending a character to the last line. *)
Lemma lines_ok_extend w R v c :
  (R = [] \/ v <> []) ->
  lines_ok w (R ++ [v ++ [c]]) =
    lines_ok w (R ++ [v]) && bool_decide (line_width v + char_cols c <= w).
Proof.
  intros Hv. destruct (list_snoc_cases R) as [->|(R' & a & ->)].
  - rewrite !app_nil_l, !lines_ok_single, fits_from_snoc. done.
  - destruct Hv as [Hv|Hv]; [by destruct R'|].
    rewrite <- !app_assoc. simpl.
    rewrite !lines_ok_snoc2, continuation_fits_snoc, break_ok_extend by done. btauto.
Qed.

(** ** The loop against the specification *)

Definition state_lines (st : WrapState) : list (list uchar) :=
  result st ++ [current_line st].

Lemma fold_wrap_step_snoc w l x :
  fold_left (wrap_step w) (l ++ [x]) wrap_init =
    wrap_step w (fold_left (wrap_step w) l wrap_init) x.
Proof. by rewrite fold_left_app. Qed.

(** The loop invariant: the counter is the width of the current line,
    and the lines so far wrap the characters read so far. *)
Lemma wrap_fold_inv w l :
  let st := fold_left (wrap_step w) l wrap_init in
  current_width st = line_width (current_line st) /\ wrap_spec w l (state_lines st).
Proof.
  induction l as [|x l IH] using rev_ind; [done|].
  rewrite fold_wrap_step_snoc.
  destruct (fold_left (wrap_step w) l wrap_init) as [R cur cw]; simpl in *.
  destruct IH as (-> & Hcat & Hok). unfold wrap_step, state_lines in *; simpl in *.
  case_decide as Hbrk; simpl; split; rewrite ?line_width_snoc; try done.
  - rewrite <- app_assoc. split.
    + by rewrite app_assoc, concat_snoc, Hcat.
    + change ([cur] ++ [[x]]) with [cur; [x]].
      rewrite lines_ok_snoc2, Hok. unfold break_ok. simpl. by rewrite bool_decide_eq_true_2.
  - split; [by rewrite concat_snoc, app_assoc, <- concat_snoc, Hcat|].
    destruct (list_snoc_cases R) as [->|(R' & a & ->)].
    + rewrite lines_ok_extend, Hok by auto. simpl. apply bool_decide_eq_true_2. lia.
    + rewrite <- app_assoc in Hok |- *. simpl in *.
      rewrite lines_ok_snoc2 in Hok. apply andb_prop in Hok as [[Hok Hcont]%andb_prop Hb].
      replace (R' ++ [a; cur ++ [x]]) with ((R' ++ [a]) ++ [cur ++ [x]])
        by by rewrite <- app_assoc.
      rewrite lines_ok_extend by (right; eauto with jerm).
      rewrite <- app_assoc. simpl. rewrite lines_ok_snoc2, Hok, Hcont, Hb. simpl.
      apply bool_decide_eq_true_2. lia.
Qed.

(** The converse: any wrapping that satisfies the specification is
    the state the loop reaches. *)
Lemma wrap_fold_unique w l R v :
  wrap_spec w l (R ++ [v]) ->
  fold_left (wrap_step w) l wrap_init = mkWrapState R v (line_width v).
Proof.
  revert R v. induction l as [|x l IH] using rev_ind; intros R v [Hcat Hok].
  - destruct (list_snoc_cases R) as [->|(R' & a & ->)].
    + simpl in Hcat. rewrite app_nil_r in Hcat. by subst.
    + rewrite <- app_assoc in Hok. simpl in Hok. rewrite lines_ok_snoc2 in Hok.
      apply andb_prop in Hok as [[_ Hc]%andb_prop _].
      apply continuation_fits_nonempty in Hc.
      rewrite concat_snoc in Hcat. apply app_eq_nil in Hcat as [_ ->]. done.
  - rewrite fold_wrap_step_snoc, concat_snoc in *.
    destruct (list_snoc_cases v) as [->|(v' & y & ->)].
    + destruct (list_snoc_cases R) as [->|(R' & a & ->)]; [simpl in Hcat; by destruct l|].
      rewrite <- app_assoc in Hok. simpl in Hok. rewrite lines_ok_snoc2 in Hok.
      apply andb_prop in Hok as [[_ Hc]%andb_prop _]. done.
    + rewrite app_assoc in Hcat. apply snoc_eq_inv in Hcat as [Hcat <-].
      destruct (decide (v' = [] /\ R <> [])) as [[-> HR]|Hcase].
      * destruct (list_snoc_cases R) as [->|(R' & a & ->)]; [done|].
        rewrite <- app_assoc in Hok. simpl in Hok. rewrite lines_ok_snoc2 in Hok.
        apply andb_prop in Hok as [[Hok _]%andb_prop Hb].
        rewrite app_nil_r, concat_snoc in Hcat.
        rewrite (IH R' a); [|split; [by rewrite concat_snoc|done]].
        unfold wrap_step. simpl. unfold break_ok in Hb. apply bool_decide_eq_true in Hb.
        rewrite decide_True by done. simpl. f_equal. rewrite line_width_cons, line_width_nil. lia.
      * rewrite lines_ok_extend in Hok
          by (destruct R; [by left|right; intros ->; apply Hcase; done]).
        apply andb_prop in Hok as [Hok Hfit]. apply bool_decide_eq_true in Hfit.
        rewrite (IH R v'); [|split; [by rewrite concat_snoc|done]].
        unfold wrap_step. simpl. rewrite decide_False by lia. simpl.
        by rewrite line_width_snoc.
Qed.

Lemma wrap_line_wrap_spec w l : 0 < w -> wrap_spec w l (wrap_line l w).
Proof.
  intros Hw. unfold wrap_line. rewrite decide_False by lia. apply (wrap_fold_inv w l).
Qed.

Lemma wrap_spec_unique w l ls : 0 < w -> wrap_spec w l ls -> wrap_line l w = ls.
Proof.
  intros Hw Hs. unfold wrap_line. rewrite decide_False by lia.
  destruct (list_snoc_cases ls) as [->|(R & v & ->)]; [by destruct Hs|].
  by rewrite (wrap_fold_unique w l R v Hs).
Qed.

(** C1: for a positive width, [wrap_line] satisfies the greedy
    specification [wrap_spec], and it is the only list of visual lines
    that does: the specification and the code agree on every input. *)
Theorem wrap_line_spec (width : nat) (line : list uchar) (ls : list (list uchar)) :
  0 < width -> (wrap_spec width line ls <-> wrap_line line width = ls).
Proof.
  intros Hw. split; [by apply wrap_spec_unique|].
  intros <-. by apply wrap_line_wrap_spec.
Qed.

(** ** Corollaries *)

(** A visual line fits the width, or it is one character wider than
    the whole width. *)
Definition line_fits (width : nat) (v : list uchar) : Prop :=
  line_width v <= width \/ exists c, v = [c] /\ width < char_cols c.

Lemma continuation_fits_line_fits w v : continuation_fits w v = true -> line_fits w v.
Proof.
  destruct v as [|c v]; [done|]. simpl. intros Hv.
  destruct (fits_from_width _ _ _ Hv) as [->|Hw].
  - destruct (decide (char_cols c <= w)); [left|right; exists c; split; [done|lia]].
    rewrite line_width_cons, line_width_nil. lia.
  - left. by rewrite line_width_cons.
Qed.

Lemma lines_ok_line_fits w ls : lines_ok w ls = true -> Forall (line_fits w) ls.
Proof.
  destruct ls as [|first rest]; [done|]. simpl.
  intros [[Hf Hr]%andb_prop _]%andb_prop. constructor.
  - left. destruct (fits_from_width _ _ _ Hf) as [->|Hw]; [rewrite line_width_nil|]; lia.
  - apply Forall_forall. intros v Hv. apply continuation_fits_line_fits.
    eapply (proj1 (forallb_forall _ _)); eauto.
Qed.

Lemma wrap_line_lines_ok w l : 0 < w -> lines_ok w (wrap_line l w) = true.
Proof. intros Hw. by apply wrap_line_wrap_spec. Qed.

#[local] Hint Resolve wrap_line_lines_ok lines_ok_line_fits : jerm.

(** A property of every character holds of every character of every
    visual line. *)
Lemma wrap_line_Forall (P : uchar -> Prop) w l :
  0 < w -> Forall P l -> Forall (Forall P) (wrap_line l w).
Proof.
  intros Hw Hl. destruct (wrap_line_wrap_spec w l Hw) as [Hc _].
  rewrite <- Hc in Hl. by apply Forall_concat in Hl.
Qed.

(** Every line gives at least one visual line. *)
Lemma wrap_line_length_pos l w : 1 <= length (wrap_line l w).
Proof. unfold wrap_line. case_decide; len. Qed.

Lemma length_le_concat {A} (ls : list (list A)) :
  Forall (fun v => v <> []) ls -> length ls <= length (concat ls).
Proof.
  induction 1 as [|v ls Hv _ IH]; [done|]. simpl. rewrite length_app.
  destruct v; [done|]. simpl. lia.
Qed.

(** C29: the number of visual lines is linear in the line: at least
    one, at most one more than the characters, and at most one per
    character (one for the empty line) unless the first visual line is
    the empty one closed before a too-wide first character. *)
Theorem wrap_line_length_bounds (line : list uchar) (width : nat) :
  0 < width ->
  1 <= length (wrap_line line width) <= S (length line) /\
  (head (wrap_line line width) <> Some [] ->
     length (wrap_line line width) <= Nat.max 1 (length line)).
Proof.
  intros Hw. pose proof (wrap_line_length_pos line width).
  destruct (wrap_line_wrap_spec width line Hw) as [Hcat Hok].
  destruct (wrap_line line width) as [|first rest]; [done|]. simpl in Hok.
  apply andb_prop in Hok as [[_ Hrest]%andb_prop _].
  assert (Hne : Forall (fun v => v <> []) rest).
  { apply Forall_forall. intros v Hv. eapply continuation_fits_nonempty.
    eapply (proj1 (forallb_forall _ _)); eauto. }
  pose proof (length_le_concat rest Hne). rewrite <- Hcat. simpl. rewrite length_app.
  split; [lia|]. intros Hf. destruct first; [done|]. simpl. lia.
Qed.

(** C2: wrapping drops, duplicates and reorders nothing: the visual
    lines concatenate to the logical line (spec section 8, item 2). *)
Theorem wrap_line_concat (line : list uchar) (width : nat) :
  0 < width -> concat (wrap_line line width) = line.
Proof. intros Hw. by apply wrap_line_wrap_spec. Qed.

(** C3: every visual line is at most [width] columns wide, except a
    line made of one character that is wider than [width] by itself.
    Spec section 8, item 1, claims the bound for every line; the
    exception is what the code does for such a character. *)
Theorem wrap_line_fits (line : list uchar) (width : nat) :
  0 < width -> Forall (line_fits width) (wrap_line line width).
Proof. intros Hw. eauto with jerm. Qed.

(** C5: the first visual line is empty exactly when the logical line
    is empty or its first character is wider than [width].  In the
    second case the code closes the still-empty current line, so an
    empty visual line precedes the wide character. *)
Theorem wrap_line_first_empty (line : list uchar) (width : nat) :
  0 < width ->
  (head (wrap_line line width) = Some [] <->
     line = [] \/ exists c rest, line = c :: rest /\ width < char_cols c).
Proof.
  intros Hw. pose proof (wrap_line_wrap_spec width line Hw) as [Hcat Hok].
  destruct (wrap_line line width) as [|first rest]; [done|]. simpl in *.
  apply andb_prop in Hok as [[Hf _]%andb_prop Hg]. split.
  - intros [= ->]. destruct rest as [|b rest]; [left; by rewrite <- Hcat|right].
    apply andb_prop in Hg as [Hb _]. destruct b as [|c b]; [done|].
    apply bool_decide_eq_true in Hb. rewrite line_width_nil in Hb.
    exists c, (b ++ concat rest). split; [by rewrite <- Hcat|lia].
  - intros [->|(c & l' & -> & Hc)].
    + by apply app_eq_nil in Hcat as [-> _].
    + destruct first as [|c' first]; [done|]. simpl in Hcat. injection Hcat as -> _.
      simpl in Hf. apply andb_prop in Hf as [Hf _]. apply bool_decide_eq_true in Hf. lia.
Qed.

Lemma line_width_concat_le w ls :
  Forall (fun v => line_width v <= w) ls -> line_width (concat ls) <= w * length ls.
Proof.
  induction 1 as [|v ls Hv _ IH]; [rewrite line_width_nil; lia|].
  simpl. rewrite line_width_app. lia.
Qed.

(** When no character is wider than one column, the [n] visual lines
    hold at most [n * width] columns. *)
Lemma wrap_line_width_total w l :
  0 < w -> Forall (fun c => char_cols c <= 1) l ->
  line_width l <= w * length (wrap_line l w).
Proof.
  intros Hw Hl. pose proof (wrap_line_wrap_spec w l Hw) as [Hc Hf%lines_ok_line_fits].
  set (ls := wrap_line l w) in *.
  rewrite <- Hc in Hl |- *. apply line_width_concat_le. apply Forall_concat in Hl.
  pose proof (Forall_and Hl Hf) as Hb.
  revert Hb. apply Forall_impl. intros v [Hv [Hfit|(c & -> & Hc')]]; [done|].
  apply Forall_inv in Hv. lia.
Qed.

(** A character is narrow when it is one column wide. *)
Definition narrow (c : uchar) : Prop := char_cols c = 1.

#[global] Instance narrow_dec c : Decision (narrow c) := _.

Lemma fits_from_narrow w acc v :
  Forall narrow v -> acc + length v <= w -> fits_from w acc v = true.
Proof.
  intros Hv. revert acc. induction Hv as [|c v Hc Hv IH]; intros acc Hle; [done|].
  unfold narrow in Hc. simpl in *. rewrite Hc, bool_decide_eq_true_2 by lia.
  apply IH. lia.
Qed.

Lemma line_width_narrow v : Forall narrow v -> line_width v = length v.
Proof.
  induction 1 as [|c v Hc _ IH]; [done|]. rewrite line_width_cons, IH. unfold narrow in Hc.
  simpl. lia.
Qed.

Lemma fits_from_zero_continuation w b :
  b <> [] -> fits_from w 0 b = true -> continuation_fits w b = true.
Proof.
  destruct b as [|c b]; [done|]. intros _. simpl. by intros [_ Hb]%andb_prop.
Qed.

Lemma chunks_head {A} w (l : list A) : 0 < w -> exists rest, chunks w l = take w l :: rest.
Proof.
  intros Hw. rewrite chunks_step. destruct (decide (w = 0 \/ length l <= w)) as [Hd|Hd].
  - exists []. rewrite take_ge by lia. done.
  - by eexists.
Qed.

(** For one-column text, the greedy pieces are the [chunks]. *)
Lemma chunks_wrap_spec w l :
  0 < w -> Forall narrow l -> wrap_spec w l (chunks w l).
Proof.
  intros Hw. remember (length l) as n eqn:En. revert l En.
  induction n as [n IH] using lt_wf_ind. intros l -> Hl. simp chunks. destruct (decide (w = 0 \/ length l <= w)) as [Hle|Hgt]; simpl.
  - split; [cbn; by rewrite ?app_nil_r|]. cbn.
    rewrite fits_from_narrow by (done || lia). done.
  - assert (Hlt : length (drop w l) < length l) by (rewrite length_drop; lia).
    assert (Hd : Forall narrow (drop w l)) by by apply Forall_drop.
    assert (Ht : Forall narrow (take w l)) by by apply Forall_take.
    destruct (IH _ Hlt _ eq_refl Hd) as [Hcat Hok].
    destruct (chunks_head w (drop w l) Hw) as [rest Hr]. rewrite Hr in Hcat, Hok |- *.
    split; [cbn [concat] in Hcat |- *; by rewrite Hcat, take_drop|].
    assert (Hb : take w (drop w l) <> []).
    { intros Hn. apply (f_equal length) in Hn. len. }
    simpl in Hok. apply andb_prop in Hok as [[Hf Hrest]%andb_prop Hg].
    cbn [lines_ok forallb breaks_greedy].
    rewrite fits_from_narrow by (rewrite ?length_take; (done || lia)).
    rewrite fits_from_zero_continuation, Hrest, Hg by done. rewrite !andb_true_r. simpl.
    destruct (take w (drop w l)) as [|c b] eqn:Eb; [done|]. unfold break_ok.
    apply bool_decide_eq_true_2. rewrite line_width_narrow, length_take by done.
    assert (Hc : narrow c).
    { assert (Htd : Forall narrow (take w (drop w l))) by by apply Forall_take.
      rewrite Eb in Htd. by apply Forall_inv in Htd. }
    unfold narrow in Hc. lia.
Qed.

(** C16: for text of one-column characters, [wrap_line] cuts the line
    into pieces of exactly [width] characters, the last piece holding
    the remaining 1 to [width] characters. *)
Theorem wrap_line_narrow_chunks (line : list uchar) (width : nat) :
  0 < width -> Forall narrow line -> wrap_line line width = chunks width line.
Proof. intros Hw Hl. by apply wrap_spec_unique, chunks_wrap_spec. Qed.

(** For one-column text, character [m] of the line is on visual row
    [m / w], at column [m mod w]. *)
Lemma wrap_line_narrow_lookup w l m :
  0 < w -> Forall narrow l -> m < length l ->
  exists v, wrap_line l w !! (m / w) = Some v /\ v !! (m mod w) = l !! m.
Proof.
  intros Hw Hl Hm. rewrite (wrap_spec_unique w _ _ Hw (chunks_wrap_spec w _ Hw Hl)), chunks_lookup by done.
  pose proof (Nat.Div0.mul_div_le m w). rewrite decide_True by lia.
  eexists. split; [done|]. rewrite lookup_take_lt by (apply Nat.mod_upper_bound; lia).
  by rewrite lookup_drop, Nat.mul_comm, <- Nat.div_mod_eq.
Qed.

(** The loop at a wider width stays ahead of the loop at a narrower
    one: it has closed fewer rows, or as many with a current row no
    wider. *)
Lemma wrap_fold_ahead w w' l :
  w <= w' ->
  let st := fold_left (wrap_step w) l wrap_init in
  let st' := fold_left (wrap_step w') l wrap_init in
  length (result st') < length (result st) \/
  length (result st') = length (result st) /\ current_width st' <= current_width st.
Proof.
  intros Hw. induction l as [|c l IH] using rev_ind; [right; simpl; lia|].
  cbv zeta in *. rewrite !fold_wrap_step_snoc.
  destruct (fold_left (wrap_step w) l wrap_init) as [R cur cw].
  destruct (fold_left (wrap_step w') l wrap_init) as [R' cur' cw']. simpl in IH.
  unfold wrap_step. cbn [result current_line current_width].
  repeat case_decide; cbn [result current_line current_width]; rewrite ?length_app; simpl; lia.
Qed.

(** While a line fits the width, the loop never closes a row. *)
Lemma fold_wrap_fits w l :
  line_width l <= w -> fold_left (wrap_step w) l wrap_init = mkWrapState [] l (line_width l).
Proof.
  induction l as [|c l IH] using rev_ind; [done|]. rewrite line_width_snoc. intros Hl.
  rewrite fold_wrap_step_snoc, IH by lia. unfold wrap_step. cbn [result current_line current_width].
  by rewrite decide_False by lia.
Qed.

(** C30: a line no wider than the width is not wrapped: it is its own
    single visual line, even when it fills the width exactly. *)
Theorem wrap_line_fit_single (line : list uchar) (width : nat) :
  0 < width -> line_width line <= width -> wrap_line line width = [line].
Proof.
  intros Hw Hl. unfold wrap_line. rewrite decide_False by lia. by rewrite fold_wrap_fits.
Qed.

(** C31: widening the pane never adds rows: at a width [w' >= w >= 1] a
    line wraps to at most as many visual lines as at [w]. *)
Theorem wrap_line_length_mono (line : list uchar) (w w' : nat) :
  0 < w -> w <= w' -> length (wrap_line line w') <= length (wrap_line line w).
Proof.
  intros Hw Hw'. unfold wrap_line. rewrite !decide_False by lia. rewrite !length_app.
  pose proof (wrap_fold_ahead w w' line Hw') as Ha. cbv zeta in Ha. simpl. lia.
Qed.

Context `{!WidthLaws}.

Lemma char_cols_le_2 c : char_cols c <= 2.
Proof.
  unfold char_cols. destruct (char_width c) eqn:E; simpl; [|lia].
  eapply char_width_le_2; eauto.
Qed.

(** C6: the counter of the loop stays below [max width 2], so the sum
    [current_width + char_width] tested at line 25 is at most
    [max width 2 + 2]: the [usize] addition cannot overflow. *)
Theorem wrap_counter_bound (width : nat) (prefix : list uchar) (ch : uchar) :
  current_width (fold_left (wrap_step width) prefix wrap_init) + char_cols ch
    <= Nat.max width 2 + 2.
Proof.
  destruct (wrap_fold_inv width prefix) as [-> [_ Hok]].
  apply lines_ok_line_fits in Hok. unfold state_lines in Hok.
  apply Forall_app in Hok as [_ Hcur]. inversion Hcur as [|? ? Hc _]; subst.
  pose proof (char_cols_le_2 ch).
  destruct Hc as [Hle|(c & -> & _)]; [lia|].
  rewrite line_width_cons, line_width_nil. pose proof (char_cols_le_2 c). lia.
Qed.
End Wrapper.

#[export] Hint Resolve wrap_line_lines_ok lines_ok_line_fits continuation_fits_nonempty : jerm.

(** ** Witnesses on concrete text *)

(** "ab中c" at width 3: the wide character does not fit after "ab". *)
Lemma wrap_line_spec_witness :
  wrap_spec 3 [97; 98; 0x4E2D; 99]%N [[97; 98]; [0x4E2D; 99]]%N.
Proof. apply (proj2 (wrap_line_spec 3 _ _ ltac:(lia))). vm_compute. reflexivity. Defined.

Lemma wrap_line_concat_witness :
  concat (wrap_line [104; 101; 108; 108; 111]%N 2) = [104; 101; 108; 108; 111]%N.
Proof. apply wrap_line_concat. lia. Defined.

Lemma wrap_line_fits_witness : Forall (line_fits 1) (wrap_line [97; 0x4E2D]%N 1).
Proof. apply wrap_line_fits. lia. Defined.

(** "中" at width 1: the result is [[]; [中]]. *)
Lemma wrap_line_first_empty_witness :
  head (wrap_line [0x4E2D]%N 1) = Some [] /\ wrap_line [0x4E2D]%N 1 = [[]; [0x4E2D]]%N.
Proof.
  split; [|vm_compute; reflexivity].
  apply (proj2 (wrap_line_first_empty [0x4E2D]%N 1 ltac:(lia))).
  right. exists 0x4E2D%N, []. split; [reflexivity|vm_compute; lia].
Defined.

Lemma wrap_line_narrow_chunks_witness :
  wrap_line [104; 101; 108; 108; 111]%N 2 = chunks 2 [104; 101; 108; 108; 111]%N.
Proof.
  apply wrap_line_narrow_chunks; [lia|].
  apply (bool_decide_unpack _). vm_compute. reflexivity.
Defined.

(** "中" at width 1: the counter reaches 2 and the next test adds 2. *)
Lemma wrap_counter_bound_witness :
  current_width (fold_left (wrap_step 1) [0x4E2D]%N wrap_init) + char_cols 0x4E2D%N
    <= Nat.max 1 2 + 2.
Proof. apply wrap_counter_bound. Defined.

(** "中a" at width 1: three visual lines for two characters. *)
Lemma wrap_line_length_bounds_witness :
  1 <= length (wrap_line [0x4E2D; 97]%N 1) <= S (length [0x4E2D; 97]%N) /\
  length (wrap_line [0x4E2D; 97]%N 1) = 3.
Proof.
  split; [apply (proj1 (wrap_line_length_bounds [0x4E2D; 97]%N 1 ltac:(lia)))|].
  vm_compute. reflexivity.
Defined.

(** "> ab" at width 4: it fills the width and stays one visual line. *)
Lemma wrap_line_fit_single_witness :
  wrap_line [62; 32; 97; 98]%N 4 = [[62; 32; 97; 98]%N].
Proof. apply wrap_line_fit_single; [lia|vm_compute; lia]. Defined.

(** "ab中c" wraps to three rows at width 2 and to two at width 3. *)
Lemma wrap_line_length_mono_witness :
  length (wrap_line [97; 98; 0x4E2D; 99]%N 3) <= length (wrap_line [97; 98; 0x4E2D; 99]%N 2) /\
  length (wrap_line [97; 98; 0x4E2D; 99]%N 3) = 2 /\ length (wrap_line [97; 98; 0x4E2D; 99]%N 2) = 3.
Proof.
  split; [apply wrap_line_length_mono; lia|]. split; vm_compute; reflexivity.
Defined.
