(* ===== verification/WrapLoop.v ===== *)
(** * The prefix property of the loop of [wrap_line]

    [Wrap] models the [for ch in line.chars()] loop of lines 22-34 as a
    [fold_left] of its body [wrap_step].  This file proves that the loop
    is incremental: reading more characters never changes the rows
    already closed, and only extends the current one.  [Cursor] uses it
    to locate the character under the cursor among the visual rows of
    the whole input line. *)

From stdpp Require Import base list numbers.
From Stdlib Require Import Lia.
From S2P Require Import Prelude Unicode Wrap.

Section WrapLoop.
Context `{UnicodeWidth}.

(** The prefix property of the loop: running on [q] from [st] keeps the
    closed rows of [st] and extends its current row. *)
Lemma fold_wrap_prefix w q st :
  exists x rest,
    state_lines (fold_left (wrap_step w) q st) = result st ++ (current_line st ++ x) :: rest.
Proof.
  revert st. induction q as [|ch q IH]; intros st; simpl.
  - exists [], []. unfold state_lines. by rewrite app_nil_r.
  - destruct (IH (wrap_step w st ch)) as (x & rest & ->). unfold wrap_step.
    case_decide; simpl.
    + exists [], ((ch :: x) :: rest). rewrite app_nil_r, <- app_assoc. done.
    + exists (ch :: x), rest. by rewrite <- app_assoc.
Qed.

(** C19: wrapping is incremental.  When the line [p] wraps to the rows
    [R] and a last row [cur], the line [p ++ q] wraps to the same rows
    [R], then [cur] extended by some characters, then further rows.
    Typing at the end of the input never moves the rows before the one
    being typed on. *)
Theorem wrap_line_prefix (width : nat) (p q : list uchar) (R : list (list uchar)) (cur : list uchar) :
  0 < width -> wrap_line p width = R ++ [cur] ->
  exists x rest, wrap_line (p ++ q) width = R ++ (cur ++ x) :: rest.
Proof.
  unfold wrap_line. intros Hw. rewrite !decide_False by lia. intros Hp.
  apply snoc_eq_inv in Hp as [<- <-]. rewrite fold_left_app. apply fold_wrap_prefix.
Qed.
End WrapLoop.

(** ** Witnesses *)

(** "ab" then "cd" at width 3: "ab" wraps to one row, "abcd" to "abc"
    and "d". *)
Lemma wrap_line_prefix_witness :
  wrap_line [97; 98]%N 3 = [] ++ [[97; 98]%N] /\
  exists x rest, wrap_line ([97; 98] ++ [99; 100])%N 3 = [] ++ ([97; 98]%N ++ x) :: rest.
Proof.
  split; [vm_compute; reflexivity|].
  apply wrap_line_prefix; [lia|vm_compute; reflexivity].
Defined.
