(* ===== verification/Layout.v ===== *)
(** * The layout engine: lines 54-80 of [render_terminal]

    [render_terminal] builds the vector [visual_lines] in two phases.
    First it extends it with the wrapping of every output line
    (lines 58-61).  It records [input_line_start] (line 64).  Then it
    extends it with the wrapping of prompt ++ input (lines 67-70).  The
    scroll offset is [total_visual_lines.saturating_sub(available_height)]
    (line 74), and the visible lines are what [skip(scroll)] leaves
    (lines 77-80).  [layout] returns these values as the record
    [Layout]. *)

From stdpp Require Import base list numbers.
From Stdlib Require Import Lia.
From S2P Require Import Prelude Unicode Wrap.

Section LayoutEngine.
Context `{UnicodeWidth}.

(** The values of the render pass that the rest of the function
    reads. *)
Record Layout := mkLayout {
  visual_lines : list (list uchar);
  input_line_start : nat;
  total_visual_lines : nat;
  scroll : nat;
  visible_lines : list (list uchar)
}.

(** Lines 55-61: [for line in &app.output { visual_lines.extend(wrap_line(line, width)) }]. *)
Definition wrap_output (output : list (list uchar)) (width : nat) : list (list uchar) :=
  fold_left (fun visual_lines line => visual_lines ++ wrap_line line width) output [].

(** Lines 54-80. *)
Definition layout (output : list (list uchar)) (full_input_line : list uchar)
    (width available_height : nat) : Layout :=
  let visual_lines := wrap_output output width in
  let input_line_start := length visual_lines in
  let visual_lines := visual_lines ++ wrap_line full_input_line width in
  let total_visual_lines := length visual_lines in
  let scroll := total_visual_lines ⊖ available_height in
  mkLayout visual_lines input_line_start total_visual_lines scroll (drop scroll visual_lines).

(** ** Lemmas *)

Lemma wrap_output_acc acc output width :
  fold_left (fun vl line => vl ++ wrap_line line width) output acc
    = acc ++ wrap_output output width.
Proof.
  unfold wrap_output. revert acc. induction output as [|l output IH]; intros acc; simpl.
  - by rewrite app_nil_r.
  - rewrite IH, (IH (wrap_line l width)). by rewrite app_assoc.
Qed.

Lemma wrap_output_concat output width :
  wrap_output output width = concat (map (fun l => wrap_line l width) output).
Proof.
  induction output as [|l output IH]; [done|].
  unfold wrap_output. simpl. rewrite wrap_output_acc, IH. done.
Qed.

Lemma wrap_output_app a b width :
  wrap_output (a ++ b) width = wrap_output a width ++ wrap_output b width.
Proof. rewrite !wrap_output_concat, map_app. apply concat_app. Qed.

(** Each output line gives at least one visual line. *)
Lemma wrap_output_length output width : length output <= length (wrap_output output width).
Proof.
  induction output as [|l output IH]; [done|].
  rewrite wrap_output_concat in *. simpl. rewrite length_app.
  pose proof (wrap_line_length_pos l width). lia.
Qed.

Lemma layout_visual_lines output full w h :
  visual_lines (layout output full w h) = wrap_output output w ++ wrap_line full w.
Proof. done. Qed.

Lemma layout_input_start output full w h :
  input_line_start (layout output full w h) = length (wrap_output output w).
Proof. done. Qed.

Lemma layout_visible output full w h :
  visible_lines (layout output full w h) =
    drop (scroll (layout output full w h)) (visual_lines (layout output full w h)).
Proof. done. Qed.

(** A visual row [r] of the input that is not scrolled off shows on
    pane row [input_line_start + r - scroll]. *)
Lemma layout_visible_input_row output full w h r :
  let lay := layout output full w h in
  scroll lay <= input_line_start lay + r ->
  visible_lines lay !! (input_line_start lay + r ⊖ scroll lay) = wrap_line full w !! r.
Proof.
  simpl. unfold saturating_sub. intros Hsc.
  rewrite lookup_drop, lookup_app_r by lia. f_equal. lia.
Qed.

(** A property of every character of the output and of the input line
    holds of every character of every visual line. *)
Lemma layout_Forall (P : uchar -> Prop) output full w h :
  0 < w -> Forall (Forall P) output -> Forall P full ->
  Forall (Forall P) (visual_lines (layout output full w h)).
Proof.
  intros Hw Ho Hf. rewrite layout_visual_lines, wrap_output_concat.
  apply Forall_app. split; [|by apply wrap_line_Forall].
  apply Forall_concat, Forall_map. revert Ho. apply Forall_impl. intros l. by apply wrap_line_Forall.
Qed.

(** C7: the input line is wrapped last.  Its visual lines are exactly
    the ones from [input_line_start] on, and the lines before it are
    the wrapped output lines in order (spec section 3,
    VisualLineIndex). *)
Theorem layout_input_last (output : list (list uchar)) (full_input_line : list uchar)
    (width available_height : nat) :
  let lay := layout output full_input_line width available_height in
  drop (input_line_start lay) (visual_lines lay) = wrap_line full_input_line width /\
  take (input_line_start lay) (visual_lines lay) =
    concat (map (fun l => wrap_line l width) output).
Proof.
  simpl. rewrite drop_app_length, take_app_length. split; [done|].
  apply wrap_output_concat.
Qed.

(** C8: the pane shows the last [min total height] visual lines: the
    visible lines are a suffix of all visual lines, and there are never
    more of them than the height.  So the drawing surface never has to
    clip (the open question of spec section 9). *)
Theorem layout_visible_suffix (output : list (list uchar)) (full_input_line : list uchar)
    (width available_height : nat) :
  let lay := layout output full_input_line width available_height in
  length (visible_lines lay) = Nat.min (total_visual_lines lay) available_height /\
  exists hidden, visual_lines lay = hidden ++ visible_lines lay /\
                 length hidden = scroll lay.
Proof.
  simpl. unfold saturating_sub. split.
  - len.
  - eexists. split; [symmetry; apply take_drop|]. len.
Qed.

(** C9: the scroll offset is [max 0 (total - height)]: no line is
    hidden when everything fits (spec section 8, item 4).  When the
    input's visual lines fit in the height, all of them are visible,
    at the bottom of the pane. *)
Theorem layout_scroll_bottom (output : list (list uchar)) (full_input_line : list uchar)
    (width available_height : nat) :
  let lay := layout output full_input_line width available_height in
  scroll lay = Nat.max 0 (total_visual_lines lay - available_height) /\
  (total_visual_lines lay <= available_height -> scroll lay = 0 /\ visible_lines lay = visual_lines lay) /\
  (length (wrap_line full_input_line width) <= available_height ->
     exists above, visible_lines lay = above ++ wrap_line full_input_line width).
Proof.
  simpl. unfold saturating_sub. rewrite length_app. split; [lia|split].
  - intros Hle.
    assert (Hz : length (wrap_output output width) + length (wrap_line full_input_line width)
                 - available_height = 0) by lia.
    rewrite Hz. done.
  - intros Hin. rewrite drop_app_le by lia.
    eexists. reflexivity.
Qed.
End LayoutEngine.
