(* ===== verification/Cursor.v ===== *)
(** * The cursor mapper: lines 87-111 of [render_terminal]

    The cursor's display column in the input line is [cursor_visual_pos]:
    the width of the prompt plus the width of the input before the
    cursor.  Division by the wrap width gives the row within the input
    ([cursor_line_offset]) and the column ([cursor_x_offset]).  The row
    is then moved by [input_line_start] and, with a saturating
    subtraction, by [scroll].  The cursor is set only when the result is
    below [available_height].  [cursor_plan] returns these values as the
    record [CursorPlan], or [None] where Rust would panic (a byte slice
    off a character boundary, or a division by zero).

    The arithmetic treats every visual row of the input as exactly
    [width] columns wide.  [cursor_plan_narrow_refines] shows that this is
    right when every character is one column wide: the cursor is then
    the cell where [wrap_step] would place the next character.
    [cursor_plan_agrees_iff] measures how far it is off in general: by
    the columns the rows closed before the cursor leave blank, which
    happens when a wide character does not fit at the end of a row
    (spec section 8, item 6). *)

From stdpp Require Import base list numbers.
From Stdlib Require Import Lia.
From S2P Require Import Prelude Unicode Wrap WrapLoop.

Section CursorMapper.
Context `{UnicodeWidth}.

Record CursorPlan := mkCursorPlan {
  cursor_visual_pos : nat;
  cursor_line_offset : nat;
  cursor_x_offset : nat;
  cursor_line_absolute : nat;
  cursor_line_visible : nat;
  cursor_shown : bool
}.

(** Lines 88-111, up to the conversion to u16 screen coordinates. *)
Definition cursor_plan (prompt input : list uchar) (cursor_pos width : nat)
    (input_line_start scroll available_height : nat) : option CursorPlan :=
  input_before_cursor ← input_before_cursor input cursor_pos;
  let prompt_width := str_width prompt in
  let cursor_visual_pos := prompt_width + str_width input_before_cursor in
  if decide (width = 0) then None
  else
    let cursor_line_offset := cursor_visual_pos / width in
    let cursor_x_offset := cursor_visual_pos mod width in
    let cursor_line_absolute := input_line_start + cursor_line_offset in
    let cursor_line_visible := cursor_line_absolute ⊖ scroll in
    Some (mkCursorPlan cursor_visual_pos cursor_line_offset cursor_x_offset
            cursor_line_absolute cursor_line_visible
            (bool_decide (cursor_line_visible < available_height))).

(** The cell (row, column) where [wrap_step] puts the next character if
    it is one column wide.  It moves to a new row exactly when the
    current row is full. *)
Definition next_cell (width : nat) (st : WrapState) : nat * nat :=
  if decide (width < current_width st + 1)
  then (S (length (result st)), 0)
  else (length (result st), current_width st).

(** ** Lemmas *)

Lemma cursor_plan_some prompt input k w start sc h :
  0 < w ->
  cursor_plan prompt input k w start sc h =
    let pos := str_width prompt + str_width (take k input) in
    Some (mkCursorPlan pos (pos / w) (pos mod w) (start + pos / w)
            (start + pos / w ⊖ sc) (bool_decide (start + pos / w ⊖ sc < h))).
Proof.
  intros Hw. unfold cursor_plan. rewrite input_before_cursor_spec. simpl.
  by rewrite decide_False by lia.
Qed.

(** For one-column text the loop fills every row to exactly [width]
    columns before it starts a new one. *)
Lemma wrap_fold_narrow w p :
  0 < w -> Forall narrow p ->
  let st := fold_left (wrap_step w) p wrap_init in
  current_width st <= w /\ length p = w * length (result st) + current_width st /\
  (p <> [] -> 1 <= current_width st).
Proof.
  intros Hw. induction p as [|x p IH] using rev_ind; [intros _; simpl; split_and!; [lia|lia|done]|].
  intros [Hp Hx%Forall_cons_1]%Forall_app. destruct Hx as [Hx _].
  rewrite fold_wrap_step_snoc, length_app.
  destruct (fold_left (wrap_step w) p wrap_init) as [R cur cw]. simpl in *.
  destruct (IH Hp) as (Hcw & Hlen & Hne). unfold wrap_step, narrow in *. simpl.
  rewrite Hx. case_decide; simpl; rewrite ?length_app; simpl; split_and!; nia.
Qed.

(** The fields of a computed plan, read back. *)
Lemma cursor_plan_fields prompt input k w start sc h plan :
  cursor_plan prompt input k w start sc h = Some plan ->
  0 < w /\ cursor_x_offset plan < w /\
  cursor_line_absolute plan = start + cursor_line_offset plan /\
  cursor_line_visible plan = cursor_line_absolute plan ⊖ sc /\
  cursor_shown plan = bool_decide (cursor_line_visible plan < h).
Proof.
  unfold cursor_plan. rewrite input_before_cursor_spec. simpl.
  case_decide; [done|]. intros [= <-]. simpl. split_and!; try done; [lia|].
  apply Nat.mod_upper_bound. done.
Qed.

(** The division of lines 97-98 lands on [next_cell] exactly when the
    display column is that of a layout whose closed rows are all
    [width] columns wide. *)
Lemma next_cell_div w st pos :
  0 < w -> current_width st <= w ->
  ((pos / w, pos mod w) = next_cell w st <-> pos = w * length (result st) + current_width st).
Proof.
  intros Hw. destruct st as [R cur cw]. unfold next_cell. simpl. intros Hcw.
  pose proof (Nat.div_mod_eq pos w) as Hd. case_decide; split.
  - intros [= Hq Hr]. rewrite Hq, Hr in Hd. lia.
  - intros ->. destruct (div_mod_unique_pos w (S (length R)) 0 (w * length R + cw))
      as [-> ->]; [lia|lia|done].
  - intros [= Hq Hr]. rewrite Hq, Hr in Hd. lia.
  - intros ->. destruct (div_mod_unique_pos w (length R) cw (w * length R + cw))
      as [-> ->]; [lia|lia|done].
Qed.

(** A character that is at least one column wide and fits after the
    current row, or starts a new row after a full one, is put by
    [wrap_step] exactly at [next_cell]: its row is the number of closed
    rows, and the characters before it in that row are [next_cell]'s
    column wide. *)
Lemma next_cell_step w st c :
  1 <= char_cols c -> current_width st = line_width (current_line st) ->
  (current_width st = w \/ current_width st + char_cols c <= w) ->
  exists pre, current_line (wrap_step w st c) = pre ++ [c] /\
    line_width pre = (next_cell w st).2 /\
    length (result (wrap_step w st c)) = (next_cell w st).1.
Proof.
  intros Hc Hcw Hfit. destruct st as [R cur cw]. simpl in *. unfold wrap_step, next_cell. simpl.
  case_decide; case_decide; simpl; try lia.
  - exists []. rewrite length_app. simpl. split_and!; [done|done|lia].
  - exists cur. done.
Qed.

(** The character after a prefix [p] lands on row [(next_cell w st).1]
    of the wrapping of the whole line, after characters
    [(next_cell w st).2] columns wide. *)
Lemma wrap_line_row_of_char w p c q :
  0 < w -> 1 <= char_cols c ->
  let st := fold_left (wrap_step w) p wrap_init in
  (current_width st = w \/ current_width st + char_cols c <= w) ->
  exists pre post, wrap_line (p ++ c :: q) w !! (next_cell w st).1 = Some (pre ++ c :: post) /\
    line_width pre = (next_cell w st).2.
Proof.
  intros Hw Hc st Hfit. destruct (wrap_fold_inv w p) as [Hcw _]. fold st in Hcw.
  destruct (next_cell_step w st c Hc Hcw Hfit) as (pre & Hcur & Hpre & Hrow).
  destruct (fold_wrap_prefix w q (wrap_step w st c)) as (x & rest & Hq).
  exists pre, x. split; [|done].
  unfold wrap_line. rewrite decide_False by lia. rewrite fold_left_app. simpl. fold st.
  change (result ?s ++ [current_line ?s]) with (state_lines s). rewrite Hq, Hcur, <- Hrow.
  rewrite lookup_app_r, Nat.sub_diag by lia. simpl. by rewrite <- app_assoc.
Qed.

(** A character that does not fit after a row that is not full closes
    that row as it is, short of the width, and opens the next one. *)
Lemma wrap_line_row_no_fit w p c q :
  let st := fold_left (wrap_step w) p wrap_init in
  current_width st < w < current_width st + char_cols c ->
  wrap_line (p ++ c :: q) w !! length (result st) = Some (current_line st) /\
  exists post, wrap_line (p ++ c :: q) w !! S (length (result st)) = Some (c :: post).
Proof.
  intros st Hc. destruct (fold_wrap_prefix w q (wrap_step w st c)) as (x & rest & Hq).
  unfold wrap_line. rewrite decide_False by lia. rewrite fold_left_app. simpl. fold st.
  change (result ?s ++ [current_line ?s]) with (state_lines s). rewrite Hq.
  unfold wrap_step. rewrite decide_True by lia. cbn [result current_line]. rewrite <- app_assoc.
  split.
  - rewrite lookup_app_r by lia. by rewrite Nat.sub_diag.
  - exists x. rewrite lookup_app_r by lia. rewrite Nat.sub_succ_l by lia. by rewrite Nat.sub_diag.
Qed.

Context `{!WidthLaws}.

Lemma line_width_take k l : line_width (take k l) <= line_width l.
Proof. rewrite <- (take_drop k l) at 2. rewrite line_width_app. lia. Qed.

(** With characters at most one column wide, the cursor's row never
    passes the last visual row of the input line. *)
Lemma cursor_line_offset_bound prompt input k w start sc h :
  0 < w -> Forall (fun c => char_cols c <= 1) (prompt ++ input) ->
  exists plan, cursor_plan prompt input k w start sc h = Some plan /\
    cursor_line_offset plan <= length (wrap_line (prompt ++ input) w).
Proof.
  intros Hw Hn. rewrite cursor_plan_some by done. eexists. split; [reflexivity|]. simpl.
  apply Nat.Div0.div_le_upper_bound.
  pose proof (wrap_line_width_total w _ Hw Hn) as Ht.
  rewrite !str_width_sum. rewrite line_width_app in Ht.
  pose proof (line_width_take k input). lia.
Qed.

Lemma str_width_narrow s : Forall narrow s -> str_width s = length s.
Proof. intros Hs. rewrite str_width_sum. by apply line_width_narrow. Qed.

(** For one-column text the cursor's column in the input line is its
    character offset after the prompt, clamped to the end of the input. *)
Lemma cursor_plan_narrow_pos prompt input k w start sc h :
  0 < w -> Forall narrow (prompt ++ input) ->
  exists plan, cursor_plan prompt input k w start sc h = Some plan /\
    cursor_visual_pos plan = length (prompt ++ take k input) /\
    cursor_line_offset plan = cursor_visual_pos plan / w /\
    cursor_x_offset plan = cursor_visual_pos plan mod w.
Proof.
  intros Hw [Hp Hi]%Forall_app. rewrite cursor_plan_some by done. eexists. split; [reflexivity|].
  simpl. rewrite !str_width_narrow, length_app by (done || by apply Forall_take). done.
Qed.

(** For one-column text that fills its rows exactly, a cursor at the
    end of the input divides to a row past the last visual row. *)
Lemma cursor_plan_narrow_past_rows prompt input k w start sc h :
  0 < w -> Forall narrow (prompt ++ input) -> length input <= k ->
  w <= length (prompt ++ input) -> length (prompt ++ input) mod w = 0 ->
  exists plan, cursor_plan prompt input k w start sc h = Some plan /\
    length (wrap_line (prompt ++ input) w) <= cursor_line_offset plan.
Proof.
  intros Hw Hn Hk Hge Hmod.
  destruct (cursor_plan_narrow_pos prompt input k w start sc h Hw Hn) as (plan & Hplan & Hpos & Hrow & _).
  rewrite take_ge in Hpos by done. exists plan. split; [done|]. rewrite Hrow, Hpos.
  rewrite (wrap_spec_unique w _ _ Hw (chunks_wrap_spec w _ Hw Hn)).
  apply lookup_ge_None. rewrite chunks_lookup by done.
  pose proof (Nat.div_mod_eq (length (prompt ++ input)) w) as Hd. rewrite Hmod in Hd.
  rewrite decide_False; [done|]. nia.
Qed.

(** C10: when the prompt and the input are made of one-column
    characters, the cursor computed by division is the cell where
    [wrap_line]'s loop would place a character typed at the cursor:
    the row and column of [next_cell] after the prompt and the first
    [cursor_pos] characters. *)
Theorem cursor_plan_narrow_refines (prompt input : list uchar) (cursor_pos width : nat)
    (input_line_start scroll available_height : nat) :
  0 < width -> Forall narrow (prompt ++ input) ->
  exists plan,
    cursor_plan prompt input cursor_pos width input_line_start scroll available_height = Some plan /\
    (cursor_line_offset plan, cursor_x_offset plan) =
      next_cell width (fold_left (wrap_step width) (prompt ++ take cursor_pos input) wrap_init).
Proof.
  intros Hw Hn.
  destruct (cursor_plan_narrow_pos prompt input cursor_pos width input_line_start scroll
              available_height Hw Hn) as (plan & Hplan & Hpos & Hrow & Hcol).
  exists plan. split; [done|]. rewrite Hrow, Hcol, Hpos.
  assert (Hp : Forall narrow (prompt ++ take cursor_pos input)).
  { apply Forall_app in Hn as [Hn1 Hn2]. apply Forall_app. split; [done|].
    by apply Forall_take. }
  destruct (wrap_fold_narrow width _ Hw Hp) as (Hcw & Hlen & _).
  by apply next_cell_div.
Qed.

(** C20: for one-column text, the cell the cursor is placed on holds the
    character under the cursor: the input's visual row
    [cursor_line_offset] exists and its character at column
    [cursor_x_offset] is the input's character at [cursor_pos]. *)
Theorem cursor_plan_narrow_cell (prompt input : list uchar) (cursor_pos width : nat)
    (input_line_start scroll available_height : nat) :
  0 < width -> Forall narrow (prompt ++ input) -> cursor_pos < length input ->
  exists plan v,
    cursor_plan prompt input cursor_pos width input_line_start scroll available_height = Some plan /\
    wrap_line (prompt ++ input) width !! cursor_line_offset plan = Some v /\
    v !! cursor_x_offset plan = input !! cursor_pos.
Proof.
  intros Hw Hn Hk.
  destruct (cursor_plan_narrow_pos prompt input cursor_pos width input_line_start scroll
              available_height Hw Hn) as (plan & Hplan & Hpos & Hrow & Hcol).
  rewrite length_app, length_take_le in Hpos by lia.
  destruct (wrap_line_narrow_lookup width (prompt ++ input) (length prompt + cursor_pos) Hw Hn)
    as (v & Hv & Hc); [len|].
  exists plan, v. rewrite Hrow, Hcol, Hpos, Hc, lookup_app_r by lia.
  split_and!; [done|done|]. f_equal. lia.
Qed.

(** C21: for one-column text and a cursor at the end of the input (or
    past it, which the code clamps), the cursor sits right after the
    last character, on the last visual row: that row exists, the cursor
    column is its length, and no row follows it.  The only exception is
    text that fills its rows exactly: then the cursor's row is the one
    after the last, which the wrapping never produced, at column 0. *)
Theorem cursor_plan_narrow_end (prompt input : list uchar) (cursor_pos width : nat)
    (input_line_start scroll available_height : nat) :
  0 < width -> Forall narrow (prompt ++ input) -> length input <= cursor_pos ->
  exists plan,
    cursor_plan prompt input cursor_pos width input_line_start scroll available_height = Some plan /\
    (wrap_line (prompt ++ input) width !! cursor_line_offset plan = None <->
       width <= length (prompt ++ input) /\ length (prompt ++ input) mod width = 0) /\
    (forall v, wrap_line (prompt ++ input) width !! cursor_line_offset plan = Some v ->
       cursor_x_offset plan = length v /\
       wrap_line (prompt ++ input) width !! S (cursor_line_offset plan) = None).
Proof.
  intros Hw Hn Hk.
  destruct (cursor_plan_narrow_pos prompt input cursor_pos width input_line_start scroll
              available_height Hw Hn) as (plan & Hplan & Hpos & Hrow & Hcol).
  rewrite take_ge in Hpos by done.
  exists plan. split; [done|]. rewrite Hrow, Hcol, Hpos.
  rewrite (wrap_spec_unique width _ _ Hw (chunks_wrap_spec width _ Hw Hn)), !chunks_lookup by done.
  set (n := length (prompt ++ input)).
  pose proof (Nat.div_mod_eq n width) as Hd. pose proof (Nat.mod_upper_bound n width) as Hr.
  set (q := n / width) in *. set (r := n mod width) in *. clearbody q r.
  split.
  - case_decide; split; intros; try done; nia.
  - intros v. case_decide as Hrow'; [|done]. intros [= <-].
    rewrite length_take, length_drop, decide_False by nia. split; [lia|done].
Qed.

(** Closed rows no wider than [w] fill [w] columns each exactly when
    together they hold [w * n] columns. *)
Lemma line_width_concat_full w R :
  Forall (fun v => line_width v <= w) R ->
  (line_width (concat R) = w * length R <-> Forall (fun v => line_width v = w) R).
Proof.
  intros HR. pose proof (line_width_concat_le w R HR) as Hle. revert Hle.
  induction HR as [|v R Hv HR IH]; intros Hle; [split; [constructor|done]|].
  simpl in *. rewrite line_width_app in *.
  pose proof (line_width_concat_le w R HR) as HleR. specialize (IH HleR). split.
  - intros Heq. constructor; [lia|apply IH; lia].
  - intros [Hv' HR']%Forall_cons_1. apply IH in HR'. lia.
Qed.

(** A row of characters no wider than a row fits the width. *)
Lemma line_fits_le w v :
  Forall (fun c => char_cols c <= w) v -> line_fits w v -> line_width v <= w.
Proof. intros Hv [Hle|(c & -> & Hc)]; [done|]. apply Forall_inv in Hv. lia. Qed.

(** When no character is wider than a row, every row of the loop fits
    the width, and the counter is the width of the current row. *)
Lemma wrap_fold_rows_fit w p :
  Forall (fun c => char_cols c <= w) p ->
  let st := fold_left (wrap_step w) p wrap_init in
  Forall (fun v => line_width v <= w) (result st) /\ current_width st <= w /\
  line_width p = line_width (concat (result st)) + current_width st.
Proof.
  intros Hp st. destruct (wrap_fold_inv w p) as (Hcw & Hcat & Hok).
  apply lines_ok_line_fits in Hok. unfold state_lines in *. fold st in Hcw, Hcat, Hok.
  rewrite <- Hcat in Hp. apply Forall_concat in Hp.
  pose proof (Forall_and Hp Hok) as Hrows. clear Hp Hok.
  apply Forall_app in Hrows as [HR [Hcur1 Hcur2]%Forall_inv].
  split_and!; [revert HR; apply Forall_impl; intros v [? ?]; by apply line_fits_le| |].
  - rewrite Hcw. by apply line_fits_le.
  - rewrite <- Hcat, concat_snoc, line_width_app, Hcw. done.
Qed.

(** From width 2 on, no character is wider than a row. *)
Lemma wrap_fold_rows w p :
  2 <= w ->
  let st := fold_left (wrap_step w) p wrap_init in
  Forall (fun v => line_width v <= w) (result st) /\ current_width st <= w /\
  line_width p = line_width (concat (result st)) + current_width st.
Proof.
  intros Hw. apply wrap_fold_rows_fit. apply Forall_forall. intros c _.
  pose proof (char_cols_le_2 c). lia.
Qed.

(** When the rows closed before the cursor are all full, the division
    lands on [next_cell]. *)
Lemma cursor_plan_full_rows prompt input k w start sc h :
  0 < w -> Forall (fun c => char_cols c <= w) (prompt ++ take k input) ->
  let st := fold_left (wrap_step w) (prompt ++ take k input) wrap_init in
  Forall (fun v => line_width v = w) (result st) ->
  exists plan, cursor_plan prompt input k w start sc h = Some plan /\
    (cursor_line_offset plan, cursor_x_offset plan) = next_cell w st.
Proof.
  intros Hw Hp st Hfull. rewrite cursor_plan_some by done. eexists. split; [reflexivity|]. simpl.
  rewrite !str_width_sum, <- line_width_app.
  destruct (wrap_fold_rows_fit w _ Hp) as (HR & Hcw & ->). fold st in HR, Hcw |- *.
  rewrite next_cell_div by done. rewrite (proj2 (line_width_concat_full w _ HR) Hfull). done.
Qed.

(** The columns the closed rows leave empty at their right ends. *)
Definition row_gaps (w : nat) (R : list (list uchar)) : nat :=
  sum_list_with (fun v => w - line_width v) R.

Lemma line_width_concat_gaps w R :
  Forall (fun v => line_width v <= w) R -> line_width (concat R) + row_gaps w R = w * length R.
Proof.
  induction 1 as [|v R Hv _ IH]; [done|]. unfold row_gaps in *. simpl.
  rewrite line_width_app. lia.
Qed.

(** The cell [next_cell], numbered row by row, is the counter of the
    current row after [w] cells for each closed row. *)
Lemma next_cell_linear w st :
  0 < w -> current_width st <= w ->
  (next_cell w st).1 * w + (next_cell w st).2 = w * length (result st) + current_width st.
Proof. intros Hw Hcw. unfold next_cell. case_decide; simpl; lia. Qed.

(** C26: for any text and a width of at least 2, the cursor computed by
    division is the cell where [wrap_line]'s loop would put the next
    character exactly when every visual row closed before the cursor
    is filled to the full width.  More precisely, numbering the cells
    row by row, the division's cell lies before [next_cell] by exactly
    the columns the closed rows leave empty: a row closed early,
    because a wide character did not fit in its last column, shifts
    every later cursor position back by the column it left blank. *)
Theorem cursor_plan_agrees_iff (prompt input : list uchar) (cursor_pos width : nat)
    (input_line_start scroll available_height : nat) :
  2 <= width ->
  let st := fold_left (wrap_step width) (prompt ++ take cursor_pos input) wrap_init in
  exists plan,
    cursor_plan prompt input cursor_pos width input_line_start scroll available_height = Some plan /\
    cursor_line_offset plan * width + cursor_x_offset plan + row_gaps width (result st) =
      (next_cell width st).1 * width + (next_cell width st).2 /\
    ((cursor_line_offset plan, cursor_x_offset plan) = next_cell width st <->
     Forall (fun v => line_width v = width) (result st)).
Proof.
  intros Hw st. rewrite cursor_plan_some by lia. eexists. split; [reflexivity|]. simpl.
  rewrite !str_width_sum, <- line_width_app.
  destruct (wrap_fold_rows width (prompt ++ take cursor_pos input) Hw) as (HR & Hcw & Hlw).
  fold st in HR, Hcw, Hlw. rewrite Hlw. split.
  - rewrite next_cell_linear by lia. pose proof (line_width_concat_gaps width _ HR).
    pose proof (Nat.div_mod_eq (line_width (concat (result st)) + current_width st) width). lia.
  - rewrite next_cell_div, <- line_width_concat_full by (done || lia). lia.
Qed.

End CursorMapper.

(** ** Witnesses *)

Lemma cursor_plan_narrow_refines_witness :
  exists plan,
    cursor_plan [62; 32]%N [97; 98; 99]%N 1 3 0 0 5 = Some plan /\
    (cursor_line_offset plan, cursor_x_offset plan) =
      next_cell 3 (fold_left (wrap_step 3) ([62; 32]%N ++ take 1 [97; 98; 99]%N) wrap_init).
Proof.
  apply cursor_plan_narrow_refines; [lia|].
  apply (bool_decide_unpack _). vm_compute. reflexivity.
Defined.

(** "> abc" at width 3 with the cursor on "b": row 1, column 0. *)
Lemma cursor_plan_narrow_cell_witness :
  exists plan v,
    cursor_plan [62; 32]%N [97; 98; 99]%N 1 3 0 0 5 = Some plan /\
    wrap_line ([62; 32] ++ [97; 98; 99])%N 3 !! cursor_line_offset plan = Some v /\
    v !! cursor_x_offset plan = [97; 98; 99]%N !! 1.
Proof.
  apply cursor_plan_narrow_cell; [lia| |simpl; lia].
  apply (bool_decide_unpack _). vm_compute. reflexivity.
Defined.

(** "> a" at width 3 with the cursor at the end: the row is full. *)
Lemma cursor_plan_narrow_end_witness :
  exists plan,
    cursor_plan [62; 32]%N [97]%N 1 3 0 0 5 = Some plan /\
    (wrap_line ([62; 32] ++ [97])%N 3 !! cursor_line_offset plan = None <->
       3 <= length ([62; 32] ++ [97])%N /\ length ([62; 32] ++ [97])%N mod 3 = 0) /\
    (forall v, wrap_line ([62; 32] ++ [97])%N 3 !! cursor_line_offset plan = Some v ->
       cursor_x_offset plan = length v /\
       wrap_line ([62; 32] ++ [97])%N 3 !! S (cursor_line_offset plan) = None).
Proof.
  apply cursor_plan_narrow_end; [lia| |simpl; lia].
  apply (bool_decide_unpack _). vm_compute. reflexivity.
Defined.

(** "中中" at width 3: the first row closes after one wide character,
    two columns wide, so the division misses the next cell. *)
Lemma cursor_plan_agrees_iff_witness :
  let st := fold_left (wrap_step 3) ([] ++ take 2 [0x4E2D; 0x4E2D]%N) wrap_init in
  exists plan,
    cursor_plan [] [0x4E2D; 0x4E2D]%N 2 3 0 0 10 = Some plan /\
    cursor_line_offset plan * 3 + cursor_x_offset plan + row_gaps 3 (result st) =
      (next_cell 3 st).1 * 3 + (next_cell 3 st).2 /\
    ((cursor_line_offset plan, cursor_x_offset plan) = next_cell 3 st <->
     Forall (fun v => line_width v = 3) (result st)).
Proof. apply cursor_plan_agrees_iff. lia. Defined.
