(* ===== verification/Frame.v ===== *)
(** * The drawing surface: ratatui's [Rect], [Block::inner] and [Frame]

    [render_terminal] talks to ratatui through a few calls:
    - [block.inner(area)] (line 48);
    - [f.render_widget] of the border block (line 49) and of the
      paragraph (line 85);
    - [f.set_cursor(x, y)] (line 112).
    It also does u16 arithmetic on the [Rect] fields (lines 107-108).
    This file holds:
    - [Rect], with u16 fields as [Z] and their range in [rect_wf];
    - [block_inner], ratatui's [Block::inner] for [Borders::ALL] with a
      top title, written with the saturating u16 operations ratatui uses;
    - u16 addition in the two build profiles: a debug build panics on
      overflow ([None]), a release build wraps;
    - [as_u16], the [usize as u16] cast, which truncates;
    - [Block], the widget of lines 43-46, and [FrameOp], the effects on
      the frame, recorded in call order;
    - [join_lines], [visible_lines.join("\n")] (line 83), and
      [text_raw], the rows ratatui's [Text::raw] makes of a text with
      [str::lines]. *)

From stdpp Require Import base list numbers.
From Stdlib Require Import Lia ZArith.
From S2P Require Import Prelude Unicode.

Local Open Scope Z_scope.

Definition u16_max : Z := 65535.

Record Rect := mkRect { rect_x : Z; rect_y : Z; rect_width : Z; rect_height : Z }.

(** A ratatui [Rect]: u16 fields, with the right and bottom edges
    inside u16 as well (the area of a terminal buffer). *)
Definition rect_wf (r : Rect) : Prop :=
  0 <= rect_x r /\ 0 <= rect_y r /\ 0 <= rect_width r /\ 0 <= rect_height r /\
  rect_x r + rect_width r <= u16_max /\ rect_y r + rect_height r <= u16_max.

Definition u16_saturating_add (a b : Z) : Z := Z.min (a + b) u16_max.
Definition u16_saturating_sub (a b : Z) : Z := Z.max (a - b) 0.

(** [Rect::right] and [Rect::bottom]. *)
Definition rect_right (r : Rect) : Z := u16_saturating_add (rect_x r) (rect_width r).
Definition rect_bottom (r : Rect) : Z := u16_saturating_add (rect_y r) (rect_height r).

(** [Block::inner] for [Borders::ALL]: one cell off each side.  The
    title sits on the top border, which already takes a row. *)
Definition block_inner (area : Rect) : Rect :=
  let x := Z.min (u16_saturating_add (rect_x area) 1) (rect_right area) in
  let w := u16_saturating_sub (rect_width area) 1 in
  let y := Z.min (u16_saturating_add (rect_y area) 1) (rect_bottom area) in
  let h := u16_saturating_sub (rect_height area) 1 in
  mkRect x y (u16_saturating_sub w 1) (u16_saturating_sub h 1).

Inductive Profile := Debug | Release.

(** [a + b] on u16: a debug build panics on overflow, a release build
    wraps around. *)
Definition u16_add (profile : Profile) (a b : Z) : option Z :=
  if decide (a + b <= u16_max) then Some (a + b)
  else match profile with
       | Debug => None
       | Release => Some ((a + b) mod (u16_max + 1))
       end.

(** [n as u16] for a [usize]: keeps the low 16 bits. *)
Definition as_u16 (n : nat) : Z := Z.of_nat n mod (u16_max + 1).

(** ratatui's colours, styles and styled spans, as far as the sources
    use them. *)
Inductive Color := Black | Cyan | Gray | DarkGray.

Record Style := mkStyle { style_fg : option Color; style_bg : option Color }.

Definition style_default : Style := mkStyle None None.

Record Span := mkSpan { span_content : list uchar; span_style : Style }.

(** [Span::raw]: a span with the default style. *)
Definition span_raw (s : list uchar) : Span := mkSpan s style_default.

(** ratatui's [Borders] flags, as far as the sources use them. *)
Inductive Borders := NONE | ALL.

(** A [Block] widget: its borders, the style of the borders and its
    title. *)
Record Block := mkBlock { block_borders : Borders; block_border_style : Style; block_title : list uchar }.

(** The calls the renderers make on the frame, in order.  A paragraph
    made of a single styled [Line] is [RenderLine]. *)
Inductive FrameOp :=
  | RenderBlock (block : Block) (area : Rect)
  | RenderParagraph (text : list uchar) (area : Rect)
  | RenderLine (spans : list Span) (area : Rect)
  | SetCursor (x y : Z).

Definition newline : uchar := 10%N.

(** [lines.join("\n")]. *)
Fixpoint join_lines (ls : list (list uchar)) : list uchar :=
  match ls with
  | [] => []
  | [v] => v
  | v :: ls' => v ++ newline :: join_lines ls'
  end.

Definition carriage_return : uchar := 13%N.

(** [str::split_inclusive('\n')]: the pieces of a text, each ending
    with its newline, the last one without when the text does not end
    with a newline. *)
Fixpoint split_inclusive (s : list uchar) : list (list uchar) :=
  match s with
  | [] => []
  | c :: s' =>
      if decide (c = newline) then [c] :: split_inclusive s'
      else match split_inclusive s' with
           | [] => [[c]]
           | v :: vs => (c :: v) :: vs
           end
  end.

(** [str::strip_suffix(c)]. *)
Definition strip_suffix (c : uchar) (v : list uchar) : option (list uchar) :=
  match reverse v with
  | d :: r => if decide (d = c) then Some (reverse r) else None
  | [] => None
  end.

(** [line.strip_suffix('\r')], keeping the line when it has no such
    suffix. *)
Definition strip_cr (v : list uchar) : list uchar := default v (strip_suffix carriage_return v).

(** The map of [str::lines] on a piece: drop the newline and then a
    carriage return before it. *)
Definition line_of_piece (v : list uchar) : list uchar :=
  match strip_suffix newline v with
  | None => v
  | Some v' => strip_cr v'
  end.

(** [str::lines]: no row after a final newline, and "\r\n" ends a row
    as "\n" does. *)
Definition str_lines (s : list uchar) : list (list uchar) := map line_of_piece (split_inclusive s).

(** ratatui's [Text::raw], the rows of the text of a [Paragraph]: the
    text's [lines()], or one empty row for the empty text. *)
Definition text_raw (s : list uchar) : list (list uchar) :=
  if decide (s = []) then [[]] else str_lines s.

(** ** Lemmas *)

Lemma u16_add_ok profile a b : a + b <= u16_max -> u16_add profile a b = Some (a + b).
Proof. intros. unfold u16_add. by rewrite decide_True. Qed.

Lemma as_u16_small (n : nat) : Z.of_nat n <= u16_max -> as_u16 n = Z.of_nat n.
Proof. intros. unfold as_u16, u16_max in *. apply Z.mod_small. lia. Qed.

Lemma block_inner_wf area : rect_wf area -> rect_wf (block_inner area).
Proof.
  unfold rect_wf, block_inner, rect_right, rect_bottom, u16_saturating_add,
    u16_saturating_sub, u16_max. simpl. lia.
Qed.

Lemma strip_suffix_snoc c v : strip_suffix c (v ++ [c]) = Some v.
Proof. unfold strip_suffix. rewrite reverse_snoc, decide_True by done. by rewrite reverse_involutive. Qed.

Lemma strip_suffix_not_in c v : c ∉ v -> strip_suffix c v = None.
Proof.
  unfold strip_suffix. intros Hc. destruct (reverse v) as [|d r] eqn:Hr; [done|].
  rewrite decide_False; [done|]. intros ->. apply Hc. rewrite <- elem_of_reverse, Hr. by left.
Qed.

Lemma strip_suffix_Some c v v' : strip_suffix c v = Some v' -> v = v' ++ [c].
Proof.
  unfold strip_suffix. destruct (reverse v) as [|d r] eqn:Hr; [done|].
  case_decide; [subst d|done]. intros [= <-].
  by rewrite <- (reverse_involutive v), Hr, reverse_cons.
Qed.

Lemma split_inclusive_no_newline v :
  newline ∉ v -> split_inclusive v = if decide (v = []) then [] else [v].
Proof.
  induction v as [|c v IH]; intros Hv; [done|]. simpl.
  apply not_elem_of_cons in Hv as [Hc Hv]. rewrite decide_False by done. rewrite IH by done.
  by destruct v.
Qed.

Lemma split_inclusive_app_newline v s :
  newline ∉ v -> split_inclusive (v ++ newline :: s) = (v ++ [newline]) :: split_inclusive s.
Proof.
  induction v as [|c v IH]; intros Hv; cbn [app split_inclusive]; [by rewrite decide_True|].
  apply not_elem_of_cons in Hv as [Hc Hv]. rewrite decide_False by done. by rewrite IH.
Qed.

Lemma str_lines_no_newline v : newline ∉ v -> str_lines v = if decide (v = []) then [] else [v].
Proof.
  intros Hv. unfold str_lines. rewrite split_inclusive_no_newline by done.
  case_decide; [done|]. simpl. unfold line_of_piece. by rewrite strip_suffix_not_in.
Qed.

Lemma text_raw_no_newline v : newline ∉ v -> text_raw v = [v].
Proof.
  intros Hv. unfold text_raw. case_decide; [by subst|].
  rewrite str_lines_no_newline by done. by rewrite decide_False.
Qed.

(** A row followed by a newline and more text is a row of its own,
    without a carriage return that ended it. *)
Lemma str_lines_join_cons v ls :
  newline ∉ v -> ls <> [] -> str_lines (join_lines (v :: ls)) = strip_cr v :: str_lines (join_lines ls).
Proof.
  intros Hv Hls. destruct ls as [|v' ls]; [done|]. change (join_lines (v :: v' :: ls))
    with (v ++ newline :: join_lines (v' :: ls)).
  unfold str_lines. rewrite split_inclusive_app_newline by done. simpl.
  unfold line_of_piece at 1. by rewrite strip_suffix_snoc.
Qed.
