(* ===== verification/Render.v ===== *)
(** * [render_terminal] (src/ui/terminal.rs, lines 42-114)

    The whole drawing entry point is one function: from the frame's
    [area] and the [App] snapshot to the frame operations it performs,
    in order.  It returns [None] where Rust panics: a u16 overflow in a
    debug build.  It composes the components:
    - [terminal_block], the titled block with all borders (lines
      43-46), and [block_inner] for its inner area (line 48);
    - [layout] for the visual lines, the start of the input and the
      scroll offset (lines 51-80);
    - [join_lines] for the paragraph text (line 83);
    - [cursor_plan] for the cursor (lines 87-104);
    - [u16_add] and [as_u16] for the screen coordinates (lines 107-108).

    The [App] state holder ([crate::app::App], not among the sources)
    is modelled from the spec, as the fields the renderer reads.
    [app_prompt] stands for the method [App::prompt]. *)

From stdpp Require Import base list numbers.
From Stdlib Require Import Lia ZArith.
From Stdlib Require String Ascii.
Import (notations) String.
From S2P Require Import Prelude Unicode Wrap Layout Cursor Frame.

Inductive AppMode := Normal | NavigationList | ShortcutSelection.

(** The snapshot of the application state that the renderer reads. *)
Record App := mkApp {
  app_output : list (list uchar);
  app_input : list uchar;
  app_cursor_pos : nat;
  app_mode : AppMode;
  app_current_dir : list uchar;
  app_prompt : list uchar
}.

(** Text literals as lists of scalar values. *)
Definition txt (s : String.string) : list uchar :=
  map Ascii.N_of_ascii (String.list_ascii_of_string s).
Arguments txt s%_string_scope.

(** Lines 43-46: [Block::default().borders(Borders::ALL)
    .border_style(Style::default().fg(Color::DarkGray)).title(" Terminal ")]. *)
Definition terminal_block : Block :=
  mkBlock ALL (mkStyle (Some DarkGray) None) (txt " Terminal ").

Section Renderer.
Context `{UnicodeWidth}.

(** Lines 42-114. *)
Definition render_terminal (profile : Profile) (area : Rect) (app : App)
    : option (list FrameOp) :=
  let inner_area := block_inner area in
  let width := Nat.max (Z.to_nat (rect_width inner_area)) 1 in
  let available_height := Z.to_nat (rect_height inner_area) in
  let prompt := app_prompt app in
  let full_input_line := prompt ++ app_input app in
  let lay := layout (app_output app) full_input_line width available_height in
  let text := join_lines (visible_lines lay) in
  plan ← cursor_plan prompt (app_input app) (app_cursor_pos app) width
           (input_line_start lay) (scroll lay) available_height;
  cursor_x ← u16_add profile (rect_x inner_area) (as_u16 (cursor_x_offset plan));
  cursor_y ← u16_add profile (rect_y inner_area) (as_u16 (cursor_line_visible plan));
  Some ([RenderBlock terminal_block area; RenderParagraph text inner_area] ++
        (if cursor_shown plan then [SetCursor cursor_x cursor_y] else [])).
End Renderer.

Definition sample_app (output : list (list uchar)) (prompt input : list uchar) (cursor : nat) : App :=
  mkApp output input cursor Normal (txt "/home") prompt.

(** Four wide characters, "中中中中". *)
Definition wide4 : list uchar := [0x4E2D; 0x4E2D; 0x4E2D; 0x4E2D]%N.

Section RendererProperties.
Context `{UnicodeWidth} `{!WidthLaws}.

Lemma layout_input_start_total output full w h :
  input_line_start (layout output full w h) + length (wrap_line full w) =
    total_visual_lines (layout output full w h).
Proof. simpl. by rewrite length_app. Qed.

(** Once the cursor row is at most the height, both u16 additions stay
    in range: the function returns the border, the paragraph and, when
    shown, the cursor at the inner area's corner moved by the plan's
    offsets. *)
Lemma render_terminal_plan (profile : Profile) (area : Rect) (app : App) (plan : CursorPlan) :
  rect_wf area ->
  let inner := block_inner area in
  let w := Nat.max (Z.to_nat (rect_width inner)) 1 in
  let h := Z.to_nat (rect_height inner) in
  let lay := layout (app_output app) (app_prompt app ++ app_input app) w h in
  cursor_plan (app_prompt app) (app_input app) (app_cursor_pos app) w
    (input_line_start lay) (scroll lay) h = Some plan ->
  cursor_line_visible plan <= h ->
  render_terminal profile area app =
    Some ([RenderBlock terminal_block area; RenderParagraph (join_lines (visible_lines lay)) inner] ++
          if cursor_shown plan
          then [SetCursor (rect_x inner + Z.of_nat (cursor_x_offset plan))
                  (rect_y inner + Z.of_nat (cursor_line_visible plan))]
          else []).
Proof.
  intros Hwf inner w h lay Hplan Hvis. pose proof (block_inner_wf _ Hwf) as Hi.
  unfold render_terminal. fold inner w h lay. fold inner in Hi. clearbody inner.
  destruct (cursor_plan_fields _ _ _ _ _ _ _ _ Hplan) as (_ & Hx & _).
  rewrite Hplan. simpl.
  unfold rect_wf, u16_max in Hi. unfold w, h in *.
  rewrite (as_u16_small (cursor_x_offset plan)) by (unfold u16_max; lia).
  rewrite (as_u16_small (cursor_line_visible plan)) by (unfold u16_max; lia).
  rewrite !u16_add_ok by (unfold u16_max; lia). done.
Qed.

(** The cursor row is at most the height when the cursor's row is at
    most the last row of the input. *)
Lemma cursor_line_visible_le output prompt input k w h plan :
  let lay := layout output (prompt ++ input) w h in
  cursor_plan prompt input k w (input_line_start lay) (scroll lay) h = Some plan ->
  cursor_line_offset plan <= length (wrap_line (prompt ++ input) w) ->
  cursor_line_visible plan <= h.
Proof.
  intros lay Hplan Hoff. destruct (cursor_plan_fields _ _ _ _ _ _ _ _ Hplan) as (_ & _ & Ha & Hv & _).
  pose proof (layout_input_start_total output (prompt ++ input) w h) as Ht. fold lay in Ht.
  assert (Hsc : scroll lay = total_visual_lines lay - h) by done.
  rewrite Hv, Ha. unfold saturating_sub. lia.
Qed.

(** With characters at most one column wide, the cursor row never
    passes the pane by more than the row below it. *)
Lemma render_terminal_ops (profile : Profile) (area : Rect) (app : App) :
  rect_wf area ->
  Forall (fun c => char_cols c <= 1) (app_prompt app ++ app_input app) ->
  let inner := block_inner area in
  let w := Nat.max (Z.to_nat (rect_width inner)) 1 in
  let h := Z.to_nat (rect_height inner) in
  let lay := layout (app_output app) (app_prompt app ++ app_input app) w h in
  exists plan,
    cursor_plan (app_prompt app) (app_input app) (app_cursor_pos app) w
      (input_line_start lay) (scroll lay) h = Some plan /\
    cursor_line_visible plan <= h /\
    render_terminal profile area app =
      Some ([RenderBlock terminal_block area; RenderParagraph (join_lines (visible_lines lay)) inner] ++
            if cursor_shown plan
            then [SetCursor (rect_x inner + Z.of_nat (cursor_x_offset plan))
                    (rect_y inner + Z.of_nat (cursor_line_visible plan))]
            else []).
Proof.
  intros Hwf Hn inner w h lay.
  destruct (cursor_line_offset_bound (app_prompt app) (app_input app) (app_cursor_pos app) w
              (input_line_start lay) (scroll lay) h) as (plan & Hplan & Hoff); [unfold w; lia|done|].
  pose proof (cursor_line_visible_le _ _ _ _ _ _ _ Hplan Hoff) as Hvis.
  exists plan. split_and!; [done|done|]. by apply render_terminal_plan.
Qed.

(** C11: a cursor whose visual line has scrolled off the top is still
    drawn, on the top row of the pane.  Whenever the cursor's absolute
    row is above the scroll offset (the input line has more visual rows
    than the pane), the saturating subtraction of line 104 clamps its
    pane row to 0, which passes the guard of line 111 in any pane at
    least one row high: [render_terminal] sets the cursor on the top row
    of the inner area, over visual line [scroll], which is not the
    cursor's line.  The spec (section 4.3 and section 8, item 5) asks
    for no cursor. *)
Theorem render_terminal_cursor_clamped (profile : Profile) (area : Rect) (app : App) (plan : CursorPlan) :
  rect_wf area ->
  let inner := block_inner area in
  let w := Nat.max (Z.to_nat (rect_width inner)) 1 in
  let h := Z.to_nat (rect_height inner) in
  let lay := layout (app_output app) (app_prompt app ++ app_input app) w h in
  0 < h ->
  cursor_plan (app_prompt app) (app_input app) (app_cursor_pos app) w
    (input_line_start lay) (scroll lay) h = Some plan ->
  cursor_line_absolute plan < scroll lay ->
  exists ops, render_terminal profile area app = Some ops /\
    SetCursor (rect_x inner + Z.of_nat (cursor_x_offset plan)) (rect_y inner) ∈ ops.
Proof.
  intros Hwf inner w h lay Hh Hplan Habs.
  destruct (cursor_plan_fields _ _ _ _ _ _ _ _ Hplan) as (_ & _ & _ & Hv & Hs).
  assert (Hv0 : cursor_line_visible plan = 0) by (rewrite Hv; unfold saturating_sub; lia).
  rewrite (render_terminal_plan profile area app plan Hwf Hplan) by lia.
  eexists. split; [reflexivity|]. fold inner.
  rewrite Hs, Hv0, bool_decide_eq_true_2 by lia. rewrite Z.add_0_r.
  apply elem_of_app. right. by constructor.
Qed.

(** C12: a cursor right after one-column text that fills its rows
    exactly is hidden when the pane is full, although the input line is
    on screen.  The cursor's column divides to a row after the last
    visual row of the input (line 97), so once the visual lines fill the
    pane its pane row equals the height, and the guard of line 111
    skips [set_cursor]; the bottom row of the pane still shows the last
    row of the input. *)
Theorem render_terminal_cursor_hidden_full_row (profile : Profile) (area : Rect) (app : App) :
  rect_wf area ->
  let inner := block_inner area in
  let w := Nat.max (Z.to_nat (rect_width inner)) 1 in
  let h := Z.to_nat (rect_height inner) in
  let full := app_prompt app ++ app_input app in
  let lay := layout (app_output app) full w h in
  Forall narrow full -> length (app_input app) <= app_cursor_pos app ->
  w <= length full -> length full mod w = 0 ->
  0 < h <= total_visual_lines lay ->
  exists ops, render_terminal profile area app = Some ops /\
    (forall x y, SetCursor x y ∉ ops) /\
    list.last (visible_lines lay) = list.last (wrap_line full w).
Proof.
  intros Hwf inner w h full lay Hn Hk Hge Hmod Hh.
  assert (Hn1 : Forall (fun c => char_cols c <= 1) full) by (revert Hn; apply Forall_impl; unfold narrow; lia).
  destruct (render_terminal_ops profile area app Hwf Hn1) as (plan & Hplan & _ & ->).
  fold inner w h full lay in Hplan |- *.
  destruct (cursor_plan_narrow_past_rows (app_prompt app) (app_input app) (app_cursor_pos app) w
              (input_line_start lay) (scroll lay) h) as (plan' & Hplan' & Hoff); [unfold w; lia|done..|].
  rewrite Hplan in Hplan'. injection Hplan' as <-. fold full in Hoff.
  destruct (cursor_plan_fields _ _ _ _ _ _ _ _ Hplan) as (_ & _ & Ha & Hv & Hs).
  pose proof (layout_input_start_total (app_output app) full w h) as Ht. fold lay in Ht.
  assert (Hsc : scroll lay = total_visual_lines lay - h) by done.
  pose proof (wrap_line_length_pos full w).
  rewrite Hs, bool_decide_eq_false_2 by (rewrite Hv, Ha; unfold saturating_sub; lia).
  eexists. split_and!; [reflexivity| |].
  - intros x y Hin. rewrite app_nil_r in Hin.
    repeat (apply elem_of_cons in Hin as [Hin|Hin]; [discriminate Hin|]).
    by apply not_elem_of_nil in Hin.
  - change (visible_lines lay) with (drop (scroll lay) (wrap_output (app_output app) w ++ wrap_line full w)).
    assert (Hs0 : input_line_start lay = length (wrap_output (app_output app) w)) by done.
    rewrite last_drop by (rewrite length_app; lia).
    destruct (wrap_line full w) as [|v vs _] using rev_ind; [simpl in *; lia|].
    by rewrite app_assoc, !last_snoc.
Qed.

(** C13: when no character of the prompt or the input is wider than
    one column, [render_terminal] never panics on u16 arithmetic, in
    either build profile.  A cursor it sets lies in the inner area:
    its column is below the inner width (one column when the width is
    zero), and its row is below the inner height. *)
Theorem render_terminal_narrow_safe (profile : Profile) (area : Rect) (app : App) :
  rect_wf area ->
  Forall (fun c => char_cols c <= 1) (app_prompt app ++ app_input app) ->
  exists ops, render_terminal profile area app = Some ops /\
    forall x y, SetCursor x y ∈ ops ->
      (0 <= x - rect_x (block_inner area) < Z.max (rect_width (block_inner area)) 1 /\
       0 <= y - rect_y (block_inner area) < rect_height (block_inner area))%Z.
Proof.
  intros Hwf Hn. pose proof (block_inner_wf _ Hwf) as Hi.
  destruct (render_terminal_ops profile area app Hwf Hn) as (plan & Hplan & _ & ->).
  destruct (cursor_plan_fields _ _ _ _ _ _ _ _ Hplan) as (_ & Hx & _ & _ & Hs).
  set (inner := block_inner area) in *. clearbody inner. unfold rect_wf in Hi. eexists. split; [reflexivity|]. intros x y Hin.
  rewrite Hs in Hin. case_bool_decide as Hlt; simpl in Hin;
    repeat (apply elem_of_cons in Hin as [Hin|Hin];
            [first [discriminate Hin | injection Hin as -> ->; lia]|]);
    by apply not_elem_of_nil in Hin.
Qed.

(** C17: when the cursor's visual line has not scrolled off the top, the
    pane row the cursor is drawn on shows that line: the visible line at
    [cursor_line_visible] is the input's visual line at
    [cursor_line_offset].  [render_terminal_cursor_clamped] shows the
    case this excludes. *)
Theorem cursor_row_shows_cursor_line (output : list (list uchar)) (prompt input : list uchar)
    (cursor_pos width available_height : nat) (plan : CursorPlan) :
  let lay := layout output (prompt ++ input) width available_height in
  cursor_plan prompt input cursor_pos width (input_line_start lay) (scroll lay) available_height
    = Some plan ->
  (scroll lay <= cursor_line_absolute plan)%nat ->
  visible_lines lay !! cursor_line_visible plan =
    wrap_line (prompt ++ input) width !! cursor_line_offset plan.
Proof.
  intros lay Hp Hsc. destruct (cursor_plan_fields _ _ _ _ _ _ _ _ Hp) as (_ & _ & Ha & Hv & _).
  rewrite Hv, Ha in *. by apply layout_visible_input_row.
Qed.

(** C18: in a release build [render_terminal] is total: every area and
    every application state give a list of frame operations.  The byte
    slice cannot fail, the width is at least 1, and u16 additions wrap.
    Only a debug build can panic, and only on the two u16 additions of
    lines 107-108. *)
Theorem render_terminal_release_total (area : Rect) (app : App) :
  exists ops, render_terminal Release area app = Some ops /\
    take 2 ops = [RenderBlock terminal_block area;
                  RenderParagraph
                    (join_lines (visible_lines
                       (layout (app_output app) (app_prompt app ++ app_input app)
                          (Nat.max (Z.to_nat (rect_width (block_inner area))) 1)
                          (Z.to_nat (rect_height (block_inner area))))))
                    (block_inner area)].
Proof.
  unfold render_terminal. cbv zeta. rewrite cursor_plan_some by lia. simpl.
  unfold u16_add. repeat case_decide; simpl; eexists; split; done.
Qed.

(** C23: a debug build panics exactly on the row addition of line 108.
    For a well-formed area the column addition of line 107 never
    overflows (the column is below the pane width), so
    [render_terminal Debug] fails exactly when the inner area's top row
    plus the cursor's pane row, cast to u16, passes [u16::MAX]. *)
Theorem render_terminal_debug_panics (area : Rect) (app : App) :
  rect_wf area ->
  let inner := block_inner area in
  let w := Nat.max (Z.to_nat (rect_width inner)) 1 in
  let h := Z.to_nat (rect_height inner) in
  let lay := layout (app_output app) (app_prompt app ++ app_input app) w h in
  exists plan,
    cursor_plan (app_prompt app) (app_input app) (app_cursor_pos app) w
      (input_line_start lay) (scroll lay) h = Some plan /\
    (render_terminal Debug area app = None <->
       (u16_max < rect_y inner + as_u16 (cursor_line_visible plan))%Z).
Proof.
  intros Hwf inner w h lay. pose proof (block_inner_wf _ Hwf) as Hi.
  unfold render_terminal. fold inner w h lay. fold inner in Hi. clearbody inner.
  assert (Hw : 0 < w) by (unfold w; lia).
  destruct (cursor_plan (app_prompt app) (app_input app) (app_cursor_pos app) w
              (input_line_start lay) (scroll lay) h) as [plan|] eqn:Hplan;
    [|by rewrite cursor_plan_some in Hplan].
  destruct (cursor_plan_fields _ _ _ _ _ _ _ _ Hplan) as (_ & Hx & _).
  exists plan. split; [done|]. simpl.
  unfold rect_wf, u16_max in Hi. unfold w in Hx.
  rewrite (as_u16_small (cursor_x_offset plan)) by (unfold u16_max; lia).
  rewrite (u16_add_ok Debug (rect_x inner)) by (unfold u16_max; lia). simpl.
  unfold u16_add. case_decide; simpl; split; intros; first [done | lia].
Qed.

(** C14: a pane of height zero shows nothing and sets no cursor (spec
    section 7).  The scroll offset is the total, so no line is visible.
    In a release build the render never fails. *)
Theorem render_terminal_zero_height (area : Rect) (app : App) :
  rect_height (block_inner area) = 0%Z ->
  render_terminal Release area app =
    Some [RenderBlock terminal_block area; RenderParagraph [] (block_inner area)].
Proof.
  intros Hh. unfold render_terminal. cbv zeta. rewrite Hh. simpl Z.to_nat.
  rewrite cursor_plan_some by lia. simpl.
  unfold u16_add. case_decide; case_decide; simpl;
    unfold saturating_sub; rewrite Nat.sub_0_r, drop_all; reflexivity.
Qed.


End RendererProperties.

(** ** Witnesses and the zero-width case *)

Lemma render_terminal_narrow_safe_witness :
  exists ops, render_terminal Debug (mkRect 0 0 7 4) (sample_app [txt "hello"] (txt "> ") [] 0) = Some ops /\
    forall x y, SetCursor x y ∈ ops ->
      (0 <= x - rect_x (block_inner (mkRect 0 0 7 4)) < Z.max (rect_width (block_inner (mkRect 0 0 7 4))) 1 /\
       0 <= y - rect_y (block_inner (mkRect 0 0 7 4)) < rect_height (block_inner (mkRect 0 0 7 4)))%Z.
Proof.
  apply render_terminal_narrow_safe.
  - unfold rect_wf, u16_max. simpl. lia.
  - apply (bool_decide_unpack _). vm_compute. reflexivity.
Defined.

Lemma cursor_row_shows_cursor_line_witness :
  visible_lines (layout [txt "hello"] (txt "> ab") 3 2) !! 1%nat =
    wrap_line (txt "> ab") 3 !! 1%nat.
Proof.
  apply (cursor_row_shows_cursor_line [txt "hello"] (txt "> ") (txt "ab") 2 3 2
           (mkCursorPlan 4 1 1 3 1 true)).
  - vm_compute. reflexivity.
  - vm_compute. lia.
Defined.

Lemma render_terminal_zero_height_witness :
  rect_height (block_inner (mkRect 0 0 6 2)) = 0%Z /\
  render_terminal Release (mkRect 0 0 6 2) (sample_app [txt "hello"] (txt "> ") (txt "ab") 1) =
    Some [RenderBlock terminal_block (mkRect 0 0 6 2); RenderParagraph [] (block_inner (mkRect 0 0 6 2))].
Proof.
  split; [reflexivity|]. apply render_terminal_zero_height. reflexivity.
Defined.

Lemma render_terminal_debug_panics_witness :
  exists plan,
    cursor_plan [] wide4 4 1 0 (scroll (layout [] wide4 1 2)) 2 = Some plan /\
    (render_terminal Debug (mkRect 0 65531 3 4) (sample_app [] [] wide4 4) = None <->
       (u16_max < rect_y (block_inner (mkRect 0 65531 3 4)) + as_u16 (cursor_line_visible plan))%Z).
Proof.
  apply (render_terminal_debug_panics (mkRect 0 65531 3 4) (sample_app [] [] wide4 4)).
  unfold rect_wf, u16_max. simpl. lia.
Defined.

(** "> abcd" in a pane 3 columns by 1 row: the row "> a" holding the
    cursor is above the visible row "bcd", and the cursor is set on the
    pane's only row. *)
Lemma render_terminal_cursor_clamped_witness :
  exists ops, render_terminal Debug (mkRect 0 0 5 3) (sample_app [] (txt "> ") (txt "abcd") 0) = Some ops /\
    SetCursor (rect_x (block_inner (mkRect 0 0 5 3)) + Z.of_nat (cursor_x_offset (mkCursorPlan 2 0 2 0 0 true)))
      (rect_y (block_inner (mkRect 0 0 5 3))) ∈ ops.
Proof.
  apply (render_terminal_cursor_clamped Debug (mkRect 0 0 5 3) (sample_app [] (txt "> ") (txt "abcd") 0)
           (mkCursorPlan 2 0 2 0 0 true)).
  - unfold rect_wf, u16_max. simpl. lia.
  - vm_compute. lia.
  - vm_compute. reflexivity.
  - vm_compute. lia.
Defined.

(** "hello" and "> abc" in a pane 5 columns by 2 rows, cursor at the
    end: "> abc" fills its row, the pane is full, and no cursor is set
    while the bottom row shows "> abc". *)
Lemma render_terminal_cursor_hidden_full_row_witness :
  exists ops, render_terminal Debug (mkRect 0 0 7 4) (sample_app [txt "hello"] (txt "> ") (txt "abc") 3) = Some ops /\
    (forall x y, SetCursor x y ∉ ops) /\
    list.last (visible_lines (layout [txt "hello"] (txt "> abc") 5 2)) = list.last (wrap_line (txt "> abc") 5).
Proof.
  pose proof (render_terminal_cursor_hidden_full_row Debug (mkRect 0 0 7 4)
                (sample_app [txt "hello"] (txt "> ") (txt "abc") 3)) as Hw.
  exact (Hw ltac:(unfold rect_wf, u16_max; simpl; lia)
            ltac:(apply (bool_decide_unpack _); vm_compute; reflexivity)
            ltac:(simpl; lia) ltac:(vm_compute; lia) ltac:(vm_compute; reflexivity) ltac:(vm_compute; lia)).
Defined.

