(* ===== verification/Screen.v ===== *)
(** * The screen a frame shows, and the end-to-end cursor theorems

    The drawing surface is ratatui's [Frame].  The spec (sections 1 and
    5, output contract) describes what it does with the calls
    [render_terminal] makes:
    - a paragraph paints its text from the top-left of its area, one row
      of text per terminal row, top to bottom, cut off at the area's
      edges;
    - [set_cursor] places the text cursor on a cell.
    This file models that screen from the spec and from ratatui's
    documented behaviour, since ratatui is a library the sources only
    call.  A [Screen] is the stack of painted layers of rows and the
    cursor, and [paint] replays a list of [FrameOp] on an empty screen.
    - The rows of a paragraph are those of [Text::raw] ([text_raw] of
      [Frame]): [str::lines], which drops a final newline and the
      carriage return of a "\r\n".  A styled [Line] is one row, its
      spans' text without newlines ([line_text]).
    - A row is cut before the first character that does not fit in the
      width of the area ([fit_width]).
    - A character is drawn in the first of the cells it covers; the
      other cells of a wide character stay blank, and a character of no
      width is not drawn ([row_cell]).
    [screen_cell] reads the character drawn in a cell, [None] for a
    blank one.  The border of the block is drawn outside the inner area,
    and its cells are not modelled.

    The theorems:
    - [render_terminal_pane_rows]: what every cell of the pane shows;
    - [render_terminal_cursor_on_char]: the refinement of the spec's
      promise of section 5.  When the input line is on screen and the
      rows the wrapping closed before the cursor are full (always the
      case for one-column text), the cursor the renderer sets is on the
      cell that shows the character under the cursor;
    - [render_terminal_wide_no_fit]: when a wide character does not fit
      after a row that is not full, the cursor is set on the blank cell
      that ends the row, and the character is shown at the start of the
      next row;
    - [render_terminal_zero_width_cursor]: with an inner area zero
      columns wide, any cursor the renderer sets is outside the pane,
      and it does set one;
    - [render_terminal_cursor_in_pane]: in a pane at least one column
      wide, any cursor the renderer sets is a cell of the pane. *)

From stdpp Require Import base list numbers.
From Stdlib Require Import Lia ZArith.
From Stdlib Require String.
Import (notations) String.
From S2P Require Import Prelude Unicode Wrap Layout Cursor Frame Render.

Section Screen.
Context `{UnicodeWidth}.

(** The screen: layers of rows, each in its area, the latest first,
    and the cursor. *)
Record Screen := mkScreen {
  scr_layers : list (list (list uchar) * Rect);
  scr_cursor : option (Z * Z)
}.

Definition screen_empty : Screen := mkScreen [] None.

(** The text of a styled line: its spans one after the other. *)
Definition spans_text (spans : list Span) : list uchar := concat (map span_content spans).

(** The one row a styled [Line] shows: ratatui skips the newlines among
    the graphemes of its spans. *)
Definition line_text (spans : list Span) : list uchar :=
  filter (fun c => c <> newline) (spans_text spans).

(** One call on the frame. *)
Definition frame_apply (s : Screen) (op : FrameOp) : Screen :=
  match op with
  | RenderBlock _ _ => s
  | RenderParagraph text area => mkScreen ((text_raw text, area) :: scr_layers s) (scr_cursor s)
  | RenderLine spans area => mkScreen (([line_text spans], area) :: scr_layers s) (scr_cursor s)
  | SetCursor x y => mkScreen (scr_layers s) (Some (x, y))
  end.

(** The calls of one frame, in order. *)
Definition paint (ops : list FrameOp) : Screen := fold_left frame_apply ops screen_empty.

Definition in_rect (a : Rect) (x y : Z) : Prop :=
  (rect_x a <= x < rect_x a + rect_width a /\ rect_y a <= y < rect_y a + rect_height a)%Z.

#[global] Instance in_rect_dec a x y : Decision (in_rect a x y) := _.

(** The characters of a row an area [width] columns wide shows: the
    row is cut before the first character that does not fit. *)
Fixpoint fit_width (width : nat) (row : list uchar) : list uchar :=
  match row with
  | [] => []
  | c :: row' =>
      if decide (char_cols c <= width) then c :: fit_width (width - char_cols c) row' else []
  end.

(** The character drawn in column [col] of a row: each character in the
    first cell it covers, the other cells of a wide character blank. *)
Fixpoint row_cell (row : list uchar) (col : nat) : option uchar :=
  match row with
  | [] => None
  | c :: row' =>
      if decide (col < char_cols c) then (if decide (col = 0) then Some c else None)
      else row_cell row' (col - char_cols c)
  end.

(** The character a layer shows in cell [(x, y)] of its area. *)
Definition layer_cell (rows : list (list uchar)) (area : Rect) (x y : Z) : option uchar :=
  row ← rows !! Z.to_nat (y - rect_y area);
  row_cell (fit_width (Z.to_nat (rect_width area)) row) (Z.to_nat (x - rect_x area)).

Fixpoint layers_cell (ls : list (list (list uchar) * Rect)) (x y : Z) : option uchar :=
  match ls with
  | [] => None
  | (rows, area) :: ls' =>
      if decide (in_rect area x y) then layer_cell rows area x y else layers_cell ls' x y
  end.

(** The character shown in cell [(x, y)], [None] for a blank cell. *)
Definition screen_cell (s : Screen) (x y : Z) : option uchar := layers_cell (scr_layers s) x y.

(** ** Lemmas *)

Lemma row_cell_narrow row col : Forall narrow row -> row_cell row col = row !! col.
Proof.
  intros Hr. revert col. induction Hr as [|c row Hc _ IH]; intros col; [done|].
  unfold narrow in Hc. cbn [row_cell]. rewrite Hc. destruct col as [|col].
  - by rewrite !decide_True by lia.
  - rewrite decide_False by lia. rewrite IH. by replace (S col - 1) with col by lia.
Qed.

Lemma fit_width_narrow w row : Forall narrow row -> fit_width w row = take w row.
Proof.
  intros Hr. revert w. induction Hr as [|c row Hc _ IH]; intros w; [by rewrite take_nil|].
  unfold narrow in Hc. cbn [fit_width]. rewrite Hc. destruct w as [|w].
  - by rewrite decide_False by lia.
  - rewrite decide_True by lia. rewrite IH. by replace (S w - 1) with w by lia.
Qed.

Lemma fit_width_le w v : line_width (fit_width w v) <= line_width v.
Proof.
  revert w. induction v as [|c v IH]; intros w; [done|]. cbn [fit_width].
  case_decide; rewrite ?line_width_cons, ?line_width_nil; [specialize (IH (w - char_cols c))|]; lia.
Qed.

(** Past the columns of a row, its cells are blank. *)
Lemma row_cell_ge v j : line_width v <= j -> row_cell v j = None.
Proof.
  revert j. induction v as [|c v IH]; intros j Hv; [done|]. rewrite line_width_cons in Hv.
  cbn [row_cell]. rewrite decide_False by lia. apply IH. lia.
Qed.

(** A character at least one column wide is drawn in the cell where the
    characters before it end, when it fits in the area. *)
Lemma row_cell_fit_app W pre c post :
  1 <= char_cols c -> line_width pre + char_cols c <= W ->
  row_cell (fit_width W (pre ++ c :: post)) (line_width pre) = Some c.
Proof.
  intros Hc. revert W. induction pre as [|d pre IH]; intros W HW; cbn [app fit_width].
  - rewrite line_width_nil in *. rewrite decide_True by lia. cbn [row_cell].
    by rewrite !decide_True by lia.
  - rewrite line_width_cons in *. rewrite decide_True by lia. cbn [row_cell].
    rewrite decide_False by lia. rewrite Nat.add_comm, Nat.add_sub. apply IH. lia.
Qed.

(** A character of no width at the end of a row changes no cell. *)
Lemma row_cell_fit_snoc_zero W v d j :
  char_cols d = 0 -> row_cell (fit_width W (v ++ [d])) j = row_cell (fit_width W v) j.
Proof.
  intros Hd. revert W j. induction v as [|c v IH]; intros W j; cbn [app fit_width].
  - rewrite Hd, decide_True by lia. cbn [row_cell fit_width]. rewrite Hd, decide_False by lia. done.
  - case_decide; [|done]. cbn [row_cell]. case_decide; [done|]. apply IH.
Qed.

Lemma paint_render_cursor area text inner x y :
  paint [RenderBlock terminal_block area; RenderParagraph text inner; SetCursor x y] =
    mkScreen [(text_raw text, inner)] (Some (x, y)).
Proof. done. Qed.
End Screen.

Section ScreenRefinement.
Context `{UnicodeWidth} `{!WidthLaws}.

Lemma char_cols_cr : char_cols carriage_return = 0.
Proof. unfold char_cols. rewrite char_width_control; [done|]. unfold carriage_return. lia. Qed.

(** The carriage return [str::lines] drops has no width: it changes no
    cell. *)
Lemma row_cell_fit_strip_cr W v j : row_cell (fit_width W (strip_cr v)) j = row_cell (fit_width W v) j.
Proof.
  unfold strip_cr. destruct (strip_suffix carriage_return v) as [v'|] eqn:E; [|done]. simpl.
  apply strip_suffix_Some in E as ->. symmetry. apply row_cell_fit_snoc_zero, char_cols_cr.
Qed.

(** Lines without newlines, joined by newlines and split again by
    [str::lines], show the same cells: only a carriage return ending a
    line and a last empty line are lost, and neither has a cell. *)
Lemma str_lines_join_cell W ls i j :
  ls <> [] -> Forall (fun v => newline ∉ v) ls ->
  str_lines (join_lines ls) !! i ≫= (fun r => row_cell (fit_width W r) j) =
    ls !! i ≫= (fun v => row_cell (fit_width W v) j).
Proof.
  intros Hne Hls. revert i. induction Hls as [|v ls Hv Hls IH]; intros i; [done|].
  destruct (decide (ls = [])) as [->|Hls'].
  - cbn [join_lines]. rewrite str_lines_no_newline by done.
    case_decide; [subst v|]; by destruct i.
  - rewrite str_lines_join_cons by done. destruct i as [|i]; simpl.
    + apply row_cell_fit_strip_cr.
    + by apply IH.
Qed.

(** [Text::raw]'s one empty row for the empty text has no cell. *)
Lemma text_raw_cell W s i j :
  text_raw s !! i ≫= (fun r => row_cell (fit_width W r) j) =
    str_lines s !! i ≫= (fun r => row_cell (fit_width W r) j).
Proof. unfold text_raw. case_decide; [subst; by destruct i|done]. Qed.

(** For text without newlines, the paragraph of the visible lines shows
    the visible lines, row by row. *)
Lemma pane_rows_cell output full w h W i j :
  0 < w -> Forall (fun l => newline ∉ l) output -> newline ∉ full ->
  text_raw (join_lines (visible_lines (layout output full w h))) !! i ≫=
    (fun r => row_cell (fit_width W r) j) =
  visible_lines (layout output full w h) !! i ≫= (fun v => row_cell (fit_width W v) j).
Proof.
  intros Hw Ho Hf. rewrite text_raw_cell.
  destruct (decide (visible_lines (layout output full w h) = [])) as [Hnil|Hne].
  - rewrite Hnil. by destruct i.
  - apply str_lines_join_cell; [done|]. rewrite layout_visible. apply Forall_drop.
    assert (Hnl : Forall (Forall (fun c => c <> newline)) (visual_lines (layout output full w h))).
    { apply layout_Forall; [done| |by apply not_elem_of_Forall_neq].
      revert Ho. apply Forall_impl. intros l. apply not_elem_of_Forall_neq. }
    revert Hnl. apply Forall_impl. intros l. apply not_elem_of_Forall_neq.
Qed.

(** Whatever the cursor, the only text a render paints is the
    paragraph of visible lines in the inner area. *)
Lemma render_terminal_layers profile area app ops :
  render_terminal profile area app = Some ops ->
  scr_layers (paint ops) =
    [(text_raw (join_lines (visible_lines (layout (app_output app) (app_prompt app ++ app_input app)
        (Nat.max (Z.to_nat (rect_width (block_inner area))) 1)
        (Z.to_nat (rect_height (block_inner area)))))), block_inner area)].
Proof.
  unfold render_terminal. cbv zeta.
  intros (plan & _ & (cx & _ & (cy & _ & [= <-])%bind_Some)%bind_Some)%bind_Some.
  by destruct (cursor_shown plan).
Qed.

(** A cell [(x, y)] of the pane, [j] columns and [i] rows from its
    corner, shows cell [j] of visible line [i], whatever the cursor. *)
Lemma paint_pane_cell area output full h X Y x y i j :
  rect_wf area ->
  let W := Z.to_nat (rect_width (block_inner area)) in
  h = Z.to_nat (rect_height (block_inner area)) ->
  Forall (fun l => newline ∉ l) output -> newline ∉ full -> j < W -> i < h ->
  x = (rect_x (block_inner area) + Z.of_nat j)%Z -> y = (rect_y (block_inner area) + Z.of_nat i)%Z ->
  let lay := layout output full W h in
  screen_cell (paint [RenderBlock terminal_block area;
                      RenderParagraph (join_lines (visible_lines lay)) (block_inner area); SetCursor X Y]) x y =
  visible_lines lay !! i ≫= (fun v => row_cell (fit_width W v) j).
Proof.
  intros Hwf W -> Ho Hf Hj Hi -> -> lay. pose proof (block_inner_wf _ Hwf) as Hin.
  rewrite paint_render_cursor. unfold screen_cell. cbn [scr_layers layers_cell].
  unfold lay, W in *. set (inner := block_inner area) in *. clearbody inner.
  rewrite decide_True by (unfold in_rect, rect_wf in *; lia). unfold layer_cell.
  replace (Z.to_nat (_ + Z.of_nat i - _)) with i by lia.
  replace (Z.to_nat (_ + Z.of_nat j - _)) with j by lia.
  apply pane_rows_cell; [lia|done|done].
Qed.

(** A row of the wrapping of text whose characters fit the width fits
    the width. *)
Lemma wrap_line_row_width w l r v :
  0 < w -> Forall (fun c => char_cols c <= w) l -> wrap_line l w !! r = Some v -> line_width v <= w.
Proof.
  intros Hw Hl Hr. apply line_fits_le.
  - exact (Forall_lookup_1 _ _ _ _ (wrap_line_Forall _ w l Hw Hl) Hr).
  - exact (Forall_lookup_1 _ _ _ _ (lines_ok_line_fits _ _ (wrap_line_lines_ok w l Hw)) Hr).
Qed.

(** For one-column text, the rows the wrapping closed are full. *)
Lemma narrow_rows_full w p :
  0 < w -> Forall narrow p ->
  Forall (fun v => line_width v = w) (result (fold_left (wrap_step w) p wrap_init)).
Proof.
  intros Hw Hp.
  assert (Hc : Forall (fun c => char_cols c <= w) p).
  { revert Hp. apply Forall_impl. intros x Hx. unfold narrow in Hx. lia. }
  destruct (wrap_fold_rows_fit w p Hc) as (HR & Hcw & Hlw).
  destruct (wrap_fold_narrow w p Hw Hp) as (_ & Hlen & _).
  rewrite (line_width_narrow p Hp) in Hlw.
  apply (line_width_concat_full w _ HR). lia.
Qed.

(** When the input line's rows fit in the pane, none of them is
    scrolled off, and each shows on a pane row. *)
Lemma input_rows_visible output full w h r :
  let lay := layout output full w h in
  length (wrap_line full w) <= h -> r < length (wrap_line full w) ->
  scroll lay <= input_line_start lay + r /\ input_line_start lay + r ⊖ scroll lay < h.
Proof.
  intros lay Hfit Hr. pose proof (layout_input_start_total output full w h) as Ht. fold lay in Ht.
  assert (Hsc : scroll lay = total_visual_lines lay ⊖ h) by done.
  unfold saturating_sub in *. lia.
Qed.

Lemma input_split (app : App) c :
  app_input app !! app_cursor_pos app = Some c ->
  app_prompt app ++ app_input app =
    (app_prompt app ++ take (app_cursor_pos app) (app_input app)) ++
      c :: drop (S (app_cursor_pos app)) (app_input app).
Proof. intros Hk. rewrite <- app_assoc. simpl. by rewrite take_drop_middle. Qed.

Lemma next_cell_col_lt w st : 0 < w -> (next_cell w st).2 < w.
Proof. intros Hw. unfold next_cell. case_decide; simpl; lia. Qed.

(** When the rows the wrapping closed before the cursor are full and
    the cell where the loop puts the next character is on a row of the
    input line, all of whose rows fit in the pane, the renderer draws
    the pane and sets the cursor on that cell. *)
Lemma render_terminal_next_cell profile area app :
  rect_wf area ->
  let inner := block_inner area in
  let w := Nat.max (Z.to_nat (rect_width inner)) 1 in
  let h := Z.to_nat (rect_height inner) in
  let full := app_prompt app ++ app_input app in
  let lay := layout (app_output app) full w h in
  let p := app_prompt app ++ take (app_cursor_pos app) (app_input app) in
  let st := fold_left (wrap_step w) p wrap_init in
  Forall (fun d => char_cols d <= w) p -> Forall (fun v => line_width v = w) (result st) ->
  (next_cell w st).1 < length (wrap_line full w) -> length (wrap_line full w) <= h ->
  render_terminal profile area app =
    Some [RenderBlock terminal_block area; RenderParagraph (join_lines (visible_lines lay)) inner;
          SetCursor (rect_x inner + Z.of_nat (next_cell w st).2)
                    (rect_y inner + Z.of_nat (input_line_start lay + (next_cell w st).1 ⊖ scroll lay))].
Proof.
  intros Hwf inner w h full lay p st Hfp Hfull Hoff Hfit.
  assert (Hw0 : 0 < w) by (unfold w; lia).
  destruct (cursor_plan_full_rows (app_prompt app) (app_input app) (app_cursor_pos app) w
              (input_line_start lay) (scroll lay) h Hw0 Hfp Hfull) as (plan & Hplan & Hcell).
  fold p st in Hcell. rewrite <- Hcell in Hoff |- *. cbn [fst snd] in Hoff |- *.
  pose proof (cursor_line_visible_le _ _ _ _ _ _ _ Hplan (Nat.lt_le_incl _ _ Hoff)) as Hvis.
  pose proof (render_terminal_plan profile area app plan Hwf Hplan Hvis) as Hr.
  destruct (cursor_plan_fields _ _ _ _ _ _ _ _ Hplan) as (_ & _ & Ha & Hv & Hs).
  destruct (input_rows_visible (app_output app) full w h _ Hfit Hoff) as [_ Hlt]. fold lay in Hlt.
  rewrite Ha in Hv. rewrite Hr, Hs, bool_decide_eq_true_2 by lia. by rewrite Hv.
Qed.

(** C27: the pane shows the bottom of the visual lines, one per row.
    For text without newlines, every cell of the inner area shows, on
    pane row [i], the cell of visual line [scroll + i]: the wrapped
    output and input lines, scrolled to the bottom, each character in
    the first cell it covers, blank cells after a wide character, past
    the end of a line and below the last one, and a line cut before a
    character that does not fit in the pane's width.  This holds for
    whatever frame the renderer returns, in either build profile. *)
Theorem render_terminal_pane_rows (profile : Profile) (area : Rect) (app : App) (ops : list FrameOp) :
  Forall (fun l => newline ∉ l) (app_output app) ->
  newline ∉ app_prompt app ++ app_input app ->
  render_terminal profile area app = Some ops ->
  let inner := block_inner area in
  let lay := layout (app_output app) (app_prompt app ++ app_input app)
               (Nat.max (Z.to_nat (rect_width inner)) 1) (Z.to_nat (rect_height inner)) in
  forall x y, in_rect inner x y ->
    screen_cell (paint ops) x y =
      visual_lines lay !! (scroll lay + Z.to_nat (y - rect_y inner)) ≫=
        fun v => row_cell (fit_width (Z.to_nat (rect_width inner)) v) (Z.to_nat (x - rect_x inner)).
Proof.
  intros Ho Hf Hr inner lay x y Hin. unfold screen_cell.
  rewrite (render_terminal_layers _ _ _ _ Hr). fold inner lay. cbn [layers_cell].
  rewrite decide_True by done. unfold layer_cell.
  rewrite <- lookup_drop. change (drop (scroll lay) (visual_lines lay)) with (visible_lines lay).
  unfold lay. apply pane_rows_cell; [lia|done|done].
Qed.

(** C22: the renderer keeps the spec's cursor promise on the screen,
    for text with characters of any width.  Take a well-formed area
    whose pane is [w >= 1] columns wide, text without newlines, no
    character wider than [w], and a cursor on a character [c] of the
    input that is at least one column wide.  Suppose the rows the
    wrapping closed before the cursor are all full, and [c] fits after
    the current row or starts a new one after a full row.  When the
    input line's visual rows fit in the pane, [render_terminal] returns
    in either build profile, sets the cursor, and the cell it sets
    shows [c].  One-column text always meets these conditions;
    [render_terminal_wide_no_fit] shows what happens when the last
    condition fails. *)
Theorem render_terminal_cursor_on_char (profile : Profile) (area : Rect) (app : App) (c : uchar) :
  rect_wf area -> (0 < rect_width (block_inner area))%Z ->
  Forall (fun l => newline ∉ l) (app_output app) ->
  newline ∉ app_prompt app ++ app_input app ->
  let w := Z.to_nat (rect_width (block_inner area)) in
  let st := fold_left (wrap_step w) (app_prompt app ++ take (app_cursor_pos app) (app_input app))
              wrap_init in
  Forall (fun d => char_cols d <= w) (app_prompt app ++ app_input app) ->
  app_input app !! app_cursor_pos app = Some c -> 1 <= char_cols c ->
  Forall (fun v => line_width v = w) (result st) ->
  (current_width st = w \/ current_width st + char_cols c <= w) ->
  length (wrap_line (app_prompt app ++ app_input app) w) <= Z.to_nat (rect_height (block_inner area)) ->
  exists ops x y,
    render_terminal profile area app = Some ops /\
    scr_cursor (paint ops) = Some (x, y) /\
    screen_cell (paint ops) x y = Some c.
Proof.
  intros Hwf Hpos Ho Hf w st Hfc Hk Hc Hfull Hnext Hfit.
  assert (HW : Nat.max (Z.to_nat (rect_width (block_inner area))) 1 = w) by (unfold w; lia).
  assert (Hw0 : 0 < w) by (unfold w; lia).
  pose proof (input_split app c Hk) as Hsplit.
  assert (Hfp : Forall (fun d => char_cols d <= w)
                  (app_prompt app ++ take (app_cursor_pos app) (app_input app))).
  { rewrite Hsplit in Hfc. by apply Forall_app in Hfc as [? _]. }
  destruct (wrap_line_row_of_char w _ c (drop (S (app_cursor_pos app)) (app_input app)) Hw0 Hc Hnext)
    as (pre & post & Hrow & Hpre). rewrite <- Hsplit in Hrow. fold st in Hrow, Hpre.
  pose proof (lookup_lt_Some _ _ _ Hrow) as Hoff.
  pose proof (render_terminal_next_cell profile area app Hwf) as Hr. cbv zeta in Hr.
  rewrite HW in Hr. fold st in Hr. specialize (Hr Hfp Hfull Hoff Hfit).
  set (h := Z.to_nat (rect_height (block_inner area))) in *.
  set (full := app_prompt app ++ app_input app) in *.
  set (lay := layout (app_output app) full w h) in *.
  do 3 eexists. split; [exact Hr|]. split; [reflexivity|].
  destruct (input_rows_visible (app_output app) full w h _ Hfit Hoff) as [Hs Hlt].
  pose proof (layout_visible_input_row (app_output app) full w h _ Hs) as Hv. cbv zeta in Hv.
  transitivity (visible_lines lay !! (input_line_start lay + (next_cell w st).1 ⊖ scroll lay) ≫=
                  (fun v => row_cell (fit_width w v) (next_cell w st).2)).
  { eapply (paint_pane_cell area (app_output app) full h); [exact Hwf|reflexivity|exact Ho|exact Hf|
      exact (next_cell_col_lt w st Hw0)|exact Hlt|reflexivity|reflexivity]. }
  fold lay in Hv. rewrite Hv, Hrow. simpl. rewrite <- Hpre. apply row_cell_fit_app; [done|].
  pose proof (wrap_line_row_width w full _ _ Hw0 Hfc Hrow) as Hwd.
  rewrite line_width_app, line_width_cons in Hwd. lia.
Qed.

(** C15: the cursor before a wide character that did not fit is drawn
    on a blank cell.  Take the conditions of
    [render_terminal_cursor_on_char], but let the character [c] under
    the cursor not fit after the current row, which is not full.  The
    wrapping closes that row short of the width and starts the next one
    with [c].  The division of lines 97-98 puts the cursor at the end of
    the short row: the cell it sets is blank, while [c] is shown at the
    start of the row below.  The spec (section 4.3) places the cursor at
    the character's cell. *)
Theorem render_terminal_wide_no_fit (profile : Profile) (area : Rect) (app : App) (c : uchar) :
  rect_wf area -> (0 < rect_width (block_inner area))%Z ->
  Forall (fun l => newline ∉ l) (app_output app) ->
  newline ∉ app_prompt app ++ app_input app ->
  let w := Z.to_nat (rect_width (block_inner area)) in
  let st := fold_left (wrap_step w) (app_prompt app ++ take (app_cursor_pos app) (app_input app))
              wrap_init in
  Forall (fun d => char_cols d <= w) (app_prompt app ++ app_input app) ->
  app_input app !! app_cursor_pos app = Some c ->
  Forall (fun v => line_width v = w) (result st) ->
  current_width st < w < current_width st + char_cols c ->
  length (wrap_line (app_prompt app ++ app_input app) w) <= Z.to_nat (rect_height (block_inner area)) ->
  exists ops x y,
    render_terminal profile area app = Some ops /\
    scr_cursor (paint ops) = Some (x, y) /\
    screen_cell (paint ops) x y = None /\
    screen_cell (paint ops) (rect_x (block_inner area)) (y + 1)%Z = Some c.
Proof.
  intros Hwf Hpos Ho Hf w st Hfc Hk Hfull Hnf Hfit.
  assert (HW : Nat.max (Z.to_nat (rect_width (block_inner area))) 1 = w) by (unfold w; lia).
  assert (Hw0 : 0 < w) by (unfold w; lia).
  pose proof (input_split app c Hk) as Hsplit.
  assert (Hfp : Forall (fun d => char_cols d <= w)
                  (app_prompt app ++ take (app_cursor_pos app) (app_input app))).
  { rewrite Hsplit in Hfc. by apply Forall_app in Hfc as [? _]. }
  destruct (wrap_line_row_no_fit w _ c (drop (S (app_cursor_pos app)) (app_input app)) Hnf)
    as [Hrow0 (post & Hrow1)]. rewrite <- Hsplit in Hrow0, Hrow1. fold st in Hrow0, Hrow1.
  destruct (wrap_fold_inv w (app_prompt app ++ take (app_cursor_pos app) (app_input app))) as [Hcw _].
  fold st in Hcw.
  assert (Hnc : next_cell w st = (length (result st), current_width st)).
  { unfold next_cell. by rewrite decide_False by lia. }
  pose proof (lookup_lt_Some _ _ _ Hrow0) as Hoff. pose proof (lookup_lt_Some _ _ _ Hrow1) as Hoff1.
  pose proof (render_terminal_next_cell profile area app Hwf) as Hr. cbv zeta in Hr.
  rewrite HW in Hr. fold st in Hr. rewrite Hnc in Hr. cbn [fst snd] in Hr.
  specialize (Hr Hfp Hfull Hoff Hfit).
  set (h := Z.to_nat (rect_height (block_inner area))) in *.
  set (full := app_prompt app ++ app_input app) in *.
  set (lay := layout (app_output app) full w h) in *.
  do 3 eexists. split; [exact Hr|]. split; [reflexivity|].
  destruct (input_rows_visible (app_output app) full w h _ Hfit Hoff) as [Hs Hlt].
  destruct (input_rows_visible (app_output app) full w h _ Hfit Hoff1) as [Hs1 Hlt1].
  pose proof (layout_visible_input_row (app_output app) full w h _ Hs) as Hv0. cbv zeta in Hv0.
  pose proof (layout_visible_input_row (app_output app) full w h _ Hs1) as Hv1. cbv zeta in Hv1.
  fold lay in Hv0, Hv1, Hs, Hs1, Hlt, Hlt1.
  split.
  - transitivity (visible_lines lay !! (input_line_start lay + length (result st) ⊖ scroll lay) ≫=
                    (fun v => row_cell (fit_width w v) (current_width st))).
    { eapply (paint_pane_cell area (app_output app) full h); [exact Hwf|reflexivity|exact Ho|exact Hf|
        unfold w in *; lia|exact Hlt|reflexivity|reflexivity]. }
    rewrite Hv0, Hrow0. simpl. apply row_cell_ge. rewrite Hcw. apply fit_width_le.
  - transitivity (visible_lines lay !! (input_line_start lay + S (length (result st)) ⊖ scroll lay) ≫=
                    (fun v => row_cell (fit_width w v) 0)).
    { eapply (paint_pane_cell area (app_output app) full h); [exact Hwf|reflexivity|exact Ho|exact Hf|
        unfold w in *; lia|exact Hlt1|lia|unfold saturating_sub in *; lia]. }
    rewrite Hv1, Hrow1. simpl. apply (row_cell_fit_app w [] c post); [lia|].
    pose proof (wrap_line_row_width w full _ _ Hw0 Hfc Hrow1) as Hwd.
    rewrite line_width_cons in Hwd. rewrite line_width_nil. lia.
Qed.

(** C25: a pane of width zero still gets a cursor, and it is outside
    the pane.  When the inner area is zero columns wide, the width is
    clamped to 1 (line 51), so the input wraps one column per row and
    the cursor's column offset is 0.  Any cursor the renderer sets is
    then at the inner area's left edge, which is not a cell of the pane:
    it is the block's right border, or past the area when that is one
    column wide.  And the renderer does set one: for one-column text,
    with the cursor on a character and the input's rows fitting in the
    pane's height.  The spec (sections 3 and 7) treats a zero width as
    a degenerate viewport with a single empty visual line. *)
Theorem render_terminal_zero_width_cursor (profile : Profile) (area : Rect) (app : App) :
  rect_wf area -> rect_width (block_inner area) = 0%Z ->
  (forall ops x y, render_terminal profile area app = Some ops -> SetCursor x y ∈ ops ->
     x = rect_x (block_inner area) /\ ~ in_rect (block_inner area) x y) /\
  (Forall narrow (app_prompt app ++ app_input app) -> app_cursor_pos app < length (app_input app) ->
   length (wrap_line (app_prompt app ++ app_input app) 1) <= Z.to_nat (rect_height (block_inner area)) ->
   exists ops x y, render_terminal profile area app = Some ops /\ SetCursor x y ∈ ops).
Proof.
  intros Hwf Hz. pose proof (block_inner_wf _ Hwf) as Hi. split.
  - intros ops x y Hr Hin. unfold render_terminal in Hr. cbv zeta in Hr. rewrite Hz in Hr.
    set (inner := block_inner area) in *. clearbody inner.
    apply bind_Some in Hr as (plan & Hplan & Hr). apply bind_Some in Hr as (cx & Hcx & Hr).
    apply bind_Some in Hr as (cy & _ & [= <-]).
    destruct (cursor_plan_fields _ _ _ _ _ _ _ _ Hplan) as (_ & Hx & _).
    assert (Hx0 : cursor_x_offset plan = 0) by (simpl in Hx; lia).
    rewrite Hx0, (as_u16_small 0) in Hcx by (unfold u16_max; lia).
    rewrite u16_add_ok in Hcx by (unfold rect_wf, u16_max in *; lia). injection Hcx as <-.
    destruct (cursor_shown plan); cbn [List.app] in Hin; apply list_elem_of_In in Hin.
    + destruct Hin as [Hin|[Hin|[Hin|[]]]]; try discriminate. injection Hin as <- <-.
      split; [lia|]. unfold in_rect. rewrite Hz. lia.
    + destruct Hin as [Hin|[Hin|[]]]; discriminate.
  - intros Hn Hk Hfit.
    destruct (lookup_lt_is_Some_2 _ _ Hk) as [c Hc].
    pose proof (input_split app c Hc) as Hsplit.
    set (p := app_prompt app ++ take (app_cursor_pos app) (app_input app)) in *.
    assert (Hnp : Forall narrow p) by (rewrite Hsplit in Hn; by apply Forall_app in Hn as [? _]).
    assert (Hcn : narrow c).
    { rewrite Hsplit in Hn. apply Forall_app in Hn as [_ Hn]. by apply Forall_cons_1 in Hn as [? _]. }
    unfold narrow in Hcn.
    assert (Hfp : Forall (fun d => char_cols d <= 1) p).
    { clear -Hnp. revert Hnp. apply Forall_impl. intros d Hd. unfold narrow in Hd. lia. }
    pose proof (narrow_rows_full 1 p ltac:(lia) Hnp) as Hfull.
    destruct (wrap_fold_narrow 1 p ltac:(lia) Hnp) as (Hcw & _ & _).
    assert (Hfit1 : current_width (fold_left (wrap_step 1) p wrap_init) = 1 \/
                    current_width (fold_left (wrap_step 1) p wrap_init) + char_cols c <= 1) by lia.
    destruct (wrap_line_row_of_char 1 p c (drop (S (app_cursor_pos app)) (app_input app))
                ltac:(lia) ltac:(lia) Hfit1) as (pre & post & Hrow & _).
    rewrite <- Hsplit in Hrow. pose proof (lookup_lt_Some _ _ _ Hrow) as Hoff.
    assert (HW : Nat.max (Z.to_nat (rect_width (block_inner area))) 1 = 1) by (rewrite Hz; done).
    pose proof (render_terminal_next_cell profile area app Hwf) as Hr. cbv zeta in Hr.
    rewrite HW in Hr. fold p in Hr. specialize (Hr Hfp Hfull Hoff Hfit).
    do 3 eexists. split; [exact Hr|]. apply list_elem_of_In. right; right; left. reflexivity.
Qed.

(** C33: whenever [render_terminal] returns, in either profile and for
    text of any width, any cursor it sets is a cell of the pane,
    provided the pane is at least one column wide: the guard of line
    111 keeps the cursor's row below the height, the column is a
    remainder modulo the width, and neither u16 addition can then
    overflow. *)
Theorem render_terminal_cursor_in_pane (profile : Profile) (area : Rect) (app : App)
    (ops : list FrameOp) (x y : Z) :
  rect_wf area -> (0 < rect_width (block_inner area))%Z ->
  render_terminal profile area app = Some ops -> SetCursor x y ∈ ops ->
  in_rect (block_inner area) x y.
Proof.
  intros Hwf Hpos Hr Hin. pose proof (block_inner_wf _ Hwf) as Hi.
  unfold render_terminal in Hr. cbv zeta in Hr.
  set (inner := block_inner area) in *. clearbody inner.
  apply bind_Some in Hr as (plan & Hplan & Hr). apply bind_Some in Hr as (cx & Hcx & Hr).
  apply bind_Some in Hr as (cy & Hcy & [= <-]).
  destruct (cursor_plan_fields _ _ _ _ _ _ _ _ Hplan) as (_ & Hx & _ & _ & Hs).
  destruct (cursor_shown plan) eqn:Hsh; cbn [List.app] in Hin; apply list_elem_of_In in Hin;
    [|destruct Hin as [Hin|[Hin|[]]]; discriminate].
  destruct Hin as [Hin|[Hin|[Hin|[]]]]; try discriminate. injection Hin as <- <-.
  symmetry in Hs. apply bool_decide_eq_true_1 in Hs.
  unfold rect_wf, u16_max in Hi.
  rewrite (as_u16_small (cursor_x_offset plan)) in Hcx by (unfold u16_max; lia).
  rewrite (as_u16_small (cursor_line_visible plan)) in Hcy by (unfold u16_max; lia).
  rewrite u16_add_ok in Hcx by (unfold u16_max; lia).
  rewrite u16_add_ok in Hcy by (unfold u16_max; lia).
  injection Hcx as <-. injection Hcy as <-. unfold in_rect. lia.
Qed.
End ScreenRefinement.

(** ** Witnesses *)

(** The prompt "> " and the input "中中中" with the cursor on the third
    character, in a pane 4 columns by 2 rows: the rows are "> 中" and
    "中中", both full, and the cursor cell shows the third "中". *)
Lemma render_terminal_cursor_on_char_witness :
  exists ops x y,
    render_terminal Debug (mkRect 0 0 6 4) (sample_app [] (txt "> ") [0x4E2D; 0x4E2D; 0x4E2D]%N 2)
      = Some ops /\
    scr_cursor (paint ops) = Some (x, y) /\
    screen_cell (paint ops) x y = Some 0x4E2D%N.
Proof.
  apply (render_terminal_cursor_on_char Debug (mkRect 0 0 6 4)
           (sample_app [] (txt "> ") [0x4E2D; 0x4E2D; 0x4E2D]%N 2) 0x4E2D%N).
  - unfold rect_wf, u16_max. simpl. lia.
  - vm_compute. reflexivity.
  - constructor.
  - apply (bool_decide_unpack _). vm_compute. reflexivity.
  - apply (bool_decide_unpack _). vm_compute. reflexivity.
  - vm_compute. reflexivity.
  - vm_compute. lia.
  - apply (bool_decide_unpack _). vm_compute. reflexivity.
  - vm_compute. lia.
  - vm_compute. lia.
Defined.

(** The prompt "> " and the input "中" with the cursor on "中", in a
    pane 3 columns by 2 rows: "中" does not fit after "> ", the cursor
    is on the blank third cell of row 0, and "中" starts row 1. *)
Lemma render_terminal_wide_no_fit_witness :
  exists ops x y,
    render_terminal Debug (mkRect 0 0 5 4) (sample_app [] (txt "> ") [0x4E2D]%N 0) = Some ops /\
    scr_cursor (paint ops) = Some (x, y) /\
    screen_cell (paint ops) x y = None /\
    screen_cell (paint ops) (rect_x (block_inner (mkRect 0 0 5 4))) (y + 1)%Z = Some 0x4E2D%N.
Proof.
  apply (render_terminal_wide_no_fit Debug (mkRect 0 0 5 4) (sample_app [] (txt "> ") [0x4E2D]%N 0)
           0x4E2D%N).
  - unfold rect_wf, u16_max. simpl. lia.
  - vm_compute. reflexivity.
  - constructor.
  - apply (bool_decide_unpack _). vm_compute. reflexivity.
  - apply (bool_decide_unpack _). vm_compute. reflexivity.
  - vm_compute. reflexivity.
  - apply (bool_decide_unpack _). vm_compute. reflexivity.
  - vm_compute. lia.
  - vm_compute. lia.
Defined.

(** "hello" above "> " in a pane 5 columns by 2 rows: the cell at column 1 of pane row 0 shows
    the "e" of visual line 0. *)
Lemma render_terminal_pane_rows_witness :
  Forall (fun l => newline ∉ l) [txt "hello"] /\
  (newline ∉ txt "> " ++ []) /\
  render_terminal Debug (mkRect 0 0 7 4) (sample_app [txt "hello"] (txt "> ") [] 0) =
    Some [RenderBlock terminal_block (mkRect 0 0 7 4);
          RenderParagraph (txt "hello" ++ newline :: txt "> ") (mkRect 1 1 5 2); SetCursor 3 2] /\
  screen_cell (paint [RenderBlock terminal_block (mkRect 0 0 7 4);
                      RenderParagraph (txt "hello" ++ newline :: txt "> ") (mkRect 1 1 5 2);
                      SetCursor 3 2]) 2 1 =
    visual_lines (layout [txt "hello"] (txt "> " ++ []) 5 2) !! (0 + 0) ≫=
      fun v => row_cell (fit_width 5 v) 1.
Proof.
  assert (Ho : Forall (fun l => newline ∉ l) [txt "hello"])
    by (apply (bool_decide_unpack _); vm_compute; reflexivity).
  assert (Hf : newline ∉ txt "> " ++ []) by (apply (bool_decide_unpack _); vm_compute; reflexivity).
  assert (Hr : render_terminal Debug (mkRect 0 0 7 4) (sample_app [txt "hello"] (txt "> ") [] 0) =
    Some [RenderBlock terminal_block (mkRect 0 0 7 4);
          RenderParagraph (txt "hello" ++ newline :: txt "> ") (mkRect 1 1 5 2); SetCursor 3 2])
    by (vm_compute; reflexivity).
  split_and!; [done|done|done|].
  apply (render_terminal_pane_rows Debug (mkRect 0 0 7 4) (sample_app [txt "hello"] (txt "> ") [] 0)
           _ Ho Hf Hr 2 1).
  apply (bool_decide_unpack _). vm_compute. reflexivity.
Defined.

(** The prompt "> " and the input "ab", cursor on "a", in an area 2
    columns wide: the inner area is 0 columns wide and the cursor is
    set. *)
Lemma render_terminal_zero_width_cursor_witness :
  rect_wf (mkRect 0 0 2 10) /\ rect_width (block_inner (mkRect 0 0 2 10)) = 0%Z /\
  exists ops x y,
    render_terminal Debug (mkRect 0 0 2 10) (sample_app [] (txt "> ") (txt "ab") 0) = Some ops /\
    SetCursor x y ∈ ops.
Proof.
  assert (Hwf : rect_wf (mkRect 0 0 2 10)) by (unfold rect_wf, u16_max; simpl; lia).
  assert (H0 : rect_width (block_inner (mkRect 0 0 2 10)) = 0%Z) by (vm_compute; reflexivity).
  split; [exact Hwf|]. split; [exact H0|].
  apply (proj2 (render_terminal_zero_width_cursor Debug _ (sample_app [] (txt "> ") (txt "ab") 0) Hwf H0)).
  - apply (bool_decide_unpack _). vm_compute. reflexivity.
  - simpl. lia.
  - vm_compute. lia.
Defined.

(** "> 中中" in a pane 4 columns by 3 rows, cursor on the second "中":
    the rows are "> 中" and "中", and the cursor is set at the start of
    the second row, in the pane. *)
Lemma render_terminal_cursor_in_pane_witness :
  render_terminal Debug (mkRect 0 0 6 5) (sample_app [] (txt "> ") [0x4E2D; 0x4E2D]%N 1) =
    Some [RenderBlock terminal_block (mkRect 0 0 6 5);
          RenderParagraph (txt "> " ++ [0x4E2D]%N ++ newline :: [0x4E2D]%N) (mkRect 1 1 4 3);
          SetCursor 1 2] /\
  in_rect (block_inner (mkRect 0 0 6 5)) 1 2.
Proof.
  assert (Hr : render_terminal Debug (mkRect 0 0 6 5) (sample_app [] (txt "> ") [0x4E2D; 0x4E2D]%N 1) =
    Some [RenderBlock terminal_block (mkRect 0 0 6 5);
          RenderParagraph (txt "> " ++ [0x4E2D]%N ++ newline :: [0x4E2D]%N) (mkRect 1 1 4 3);
          SetCursor 1 2]) by (vm_compute; reflexivity).
  split; [exact Hr|].
  apply (render_terminal_cursor_in_pane Debug (mkRect 0 0 6 5)
           (sample_app [] (txt "> ") [0x4E2D; 0x4E2D]%N 1) _ 1 2
           ltac:(unfold rect_wf, u16_max; simpl; lia) ltac:(vm_compute; reflexivity) Hr).
  apply list_elem_of_In. simpl. auto.
Defined.
