(* ===== verification/StatusBar.v ===== *)
(** * The status bar: [render_status_bar] (src/ui/terminal.rs, lines 118-139)

    The status bar is one styled line with three spans:
    - the mode name between spaces, black on cyan;
    - a raw space;
    - the current directory, in gray.
    It is drawn as a paragraph over the given area.  [mode_text] is the
    [match] of lines 119-123.  [status_line] builds the [Line] of lines
    125-135.  On the screen model of [Screen], the bar shows on the top
    row of the area a space, the mode's label, two spaces and the
    directory, one character per cell for one-column text, and nothing
    below it. *)

From stdpp Require Import base list numbers.
From Stdlib Require Import Lia ZArith String Ascii.
From S2P Require Import Prelude Unicode Wrap Frame Render Screen.

(** Lines 119-123. *)
Definition mode_text (mode : AppMode) : list uchar :=
  match mode with
  | Normal => txt "NORMAL"
  | NavigationList => txt "NAV"
  | ShortcutSelection => txt "GOTO"
  end.

(** Lines 125-135. *)
Definition status_line (app : App) : list Span :=
  [mkSpan (txt " " ++ mode_text (app_mode app) ++ txt " ") (mkStyle (Some Black) (Some Cyan));
   span_raw (txt " ");
   mkSpan (app_current_dir app) (mkStyle (Some Gray) None)].

(** Lines 118-139. *)
Definition render_status_bar (area : Rect) (app : App) : list FrameOp :=
  [RenderLine (status_line app) area].

(** The status bar shows the mode label, a space and the current
    directory, in that order.  The labels of the three modes differ, so
    the bar always tells the modes apart. *)
Theorem render_status_bar_text (area : Rect) (app : App) :
  (exists spans, render_status_bar area app = [RenderLine spans area] /\
     mjoin (map span_content spans) =
       txt " " ++ mode_text (app_mode app) ++ txt "  " ++ app_current_dir app) /\
  (forall m1 m2, mode_text m1 = mode_text m2 -> m1 = m2).
Proof.
  split.
  - eexists. split; [reflexivity|]. simpl. rewrite app_nil_r.
    by rewrite <- !app_assoc.
  - intros [] []; vm_compute; congruence.
Qed.


Lemma mode_text_no_newline m : newline ∉ mode_text m.
Proof. apply (bool_decide_unpack _). by destruct m; vm_compute. Qed.

Lemma spans_text_status_line app :
  spans_text (status_line app) = txt " " ++ mode_text (app_mode app) ++ txt "  " ++ app_current_dir app.
Proof. unfold spans_text. simpl. rewrite app_nil_r. by rewrite <- !app_assoc. Qed.

Section StatusBarScreen.
Context `{UnicodeWidth} `{!WidthLaws}.

(** One-column characters are not newlines, which have no width. *)
Lemma filter_not_newline l : Forall narrow l -> filter (fun c => c <> newline) l = l.
Proof.
  induction 1 as [|c l Hc _ IH]; [done|]. rewrite filter_cons, decide_True; [by rewrite IH|].
  intros ->. unfold narrow, char_cols in Hc. rewrite char_width_control in Hc; [done|].
  unfold newline. lia.
Qed.

(** C24: on the screen, the status bar shows on the top row of its area
    a space, the mode's label ("NORMAL", "NAV" or "GOTO"), two spaces
    and the current directory, the [j]-th character in the [j]-th cell
    (blank past the end of the text), and blank rows below.  It sets no
    cursor.  This holds when that text is made of one-column
    characters. *)
Theorem render_status_bar_cells (area : Rect) (app : App) :
  let label := match app_mode app with
               | Normal => txt "NORMAL"
               | NavigationList => txt "NAV"
               | ShortcutSelection => txt "GOTO"
               end in
  let text := txt " " ++ label ++ txt "  " ++ app_current_dir app in
  Forall narrow text ->
  scr_cursor (paint (render_status_bar area app)) = None /\
  forall x y, in_rect area x y ->
    screen_cell (paint (render_status_bar area app)) x y =
      if decide (y = rect_y area) then text !! Z.to_nat (x - rect_x area) else None.
Proof.
  intros label text Hn. split; [done|]. intros x y Hin.
  unfold screen_cell, render_status_bar, paint.
  cbn [fold_left frame_apply screen_empty scr_layers layers_cell].
  rewrite decide_True by done. unfold layer_cell.
  assert (Ht : line_text (status_line app) = text).
  { unfold line_text. rewrite spans_text_status_line, <- filter_not_newline by done.
    unfold text, label. by destruct (app_mode app). }
  rewrite Ht. unfold in_rect in Hin. case_decide as Hy.
  - subst y. rewrite Z.sub_diag. replace ([text] !! Z.to_nat 0) with (Some text) by done.
    cbn [mbind option_bind]. rewrite fit_width_narrow, row_cell_narrow by first [done | by apply Forall_take].
    apply lookup_take_lt. lia.
  - rewrite lookup_ge_None_2; [done|]. simpl. lia.
Qed.
End StatusBarScreen.

(** The navigation mode in "/home". *)
Definition nav_app : App := mkApp [] [] 0 NavigationList (txt "/home") [].

Lemma render_status_bar_cells_witness :
  Forall narrow (txt " " ++ txt "NAV" ++ txt "  " ++ txt "/home") /\
  screen_cell (paint (render_status_bar (mkRect 0 20 30 1) nav_app)) 1 20 = Some 78%N.
Proof.
  assert (Hn : Forall narrow (txt " " ++ txt "NAV" ++ txt "  " ++ txt "/home")).
  { apply (bool_decide_unpack _). vm_compute. done. }
  split; [exact Hn|].
  rewrite (proj2 (render_status_bar_cells (mkRect 0 20 30 1) nav_app Hn) 1%Z 20%Z)
    by (unfold in_rect; simpl; lia).
  vm_compute. reflexivity.
Defined.
