(* ===== verification/Session.v ===== *)
(** * A session: renders between application events

    [render_terminal] is called once per redraw, and between two redraws
    the application changes its state (spec section 5).  The state
    holder and the key handling are not among the sources, so the
    events are modelled from the spec's input contract:
    - output lines are only ever appended ([Emit]);
    - the input buffer, the cursor offset, the mode, the directory and
      the prompt may change in any way ([Edit]).
    [run_session] applies a list of events.  The theorem is a liveness
    property of the renders of such a session: a row leaves the pane
    after enough further output, whatever the user does to the input
    meanwhile, it never comes back, and a row of the output stays the
    same row. *)

From stdpp Require Import base list numbers.
From Stdlib Require Import Lia.
From S2P Require Import Prelude Unicode Wrap Layout Render.

(** What happens between two renders. *)
Inductive Event :=
  | Emit (line : list uchar)
  | Edit (input : list uchar) (cursor_pos : nat) (mode : AppMode) (current_dir prompt : list uchar).

Definition apply_event (app : App) (e : Event) : App :=
  match e with
  | Emit line =>
      mkApp (app_output app ++ [line]) (app_input app) (app_cursor_pos app) (app_mode app)
        (app_current_dir app) (app_prompt app)
  | Edit input cursor_pos mode dir prompt => mkApp (app_output app) input cursor_pos mode dir prompt
  end.

Definition run_session (app : App) (evs : list Event) : App := fold_left apply_event evs app.

(** The output lines a list of events emits, in order. *)
Fixpoint emitted (evs : list Event) : list (list uchar) :=
  match evs with
  | [] => []
  | Emit line :: evs' => line :: emitted evs'
  | Edit _ _ _ _ _ :: evs' => emitted evs'
  end.

Section Session.
Context `{UnicodeWidth}.

(** The layout of the render of [app] in a pane [w] by [h]. *)
Definition app_layout (app : App) (w h : nat) : Layout :=
  layout (app_output app) (app_prompt app ++ app_input app) w h.

(** ** Lemmas *)

Lemma emitted_app evs evs' : emitted (evs ++ evs') = emitted evs ++ emitted evs'.
Proof. induction evs as [|[] evs IH]; simpl; by rewrite ?IH. Qed.

Lemma run_session_output app evs :
  app_output (run_session app evs) = app_output app ++ emitted evs.
Proof.
  revert app. induction evs as [|[] evs IH]; intros app; simpl.
  - by rewrite app_nil_r.
  - rewrite IH. simpl. by rewrite <- app_assoc.
  - by rewrite IH.
Qed.

(** The scroll offset is at least the rows of the output beyond the
    height: the input line adds at least one more row. *)
Lemma scroll_lower_bound app w h :
  length (wrap_output (app_output app) w) + 1 - h <= scroll (app_layout app w h).
Proof.
  unfold app_layout. simpl. unfold saturating_sub. rewrite length_app.
  pose proof (wrap_line_length_pos (app_prompt app ++ app_input app) w). lia.
Qed.

(** C28: liveness of scrolling.  Start from any state and consider any
    row [r] of the pane's visual lines.  After events that emit at
    least [r + h] output lines, in a pane [h] rows high, row [r] has
    scrolled off the top, whatever edits happened in between, and it
    stays off after any further events.  If it was a row of the output,
    it is still the same row. *)
Theorem output_row_scrolls_off (app : App) (evs evs' : list Event) (w h r : nat) :
  r + h <= length (emitted evs) ->
  let app' := run_session app (evs ++ evs') in
  r < scroll (app_layout app' w h) /\
  (r < length (wrap_output (app_output app) w) ->
     visual_lines (app_layout app' w h) !! r = wrap_output (app_output app) w !! r).
Proof.
  intros Hn app'. pose proof (scroll_lower_bound app' w h) as Hs.
  assert (Ho : app_output app' = app_output app ++ emitted evs ++ emitted evs').
  { unfold app'. by rewrite run_session_output, emitted_app. }
  rewrite Ho, !wrap_output_app, !length_app in Hs.
  pose proof (wrap_output_length (emitted evs) w). split; [lia|].
  intros Hr. unfold app_layout. rewrite layout_visual_lines, Ho, !wrap_output_app.
  rewrite <- app_assoc. by apply lookup_app_l.
Qed.
End Session.

(** ** Witnesses *)

(** Three lines emitted around an edit of the input, in a pane 2 rows
    high: row 1 is off the pane. *)
Lemma output_row_scrolls_off_witness :
  1 + 2 <= length (emitted [Emit [97]%N; Edit [98]%N 1 Normal [] [62]%N; Emit [99]%N; Emit [100]%N]) /\
  1 < scroll (app_layout (run_session (sample_app [[104]%N; [105]%N] [62]%N [] 0)
               ([Emit [97]%N; Edit [98]%N 1 Normal [] [62]%N; Emit [99]%N; Emit [100]%N] ++ []))
              4 2).
Proof.
  split; [simpl; lia|].
  apply (output_row_scrolls_off (sample_app [[104]%N; [105]%N] [62]%N [] 0)
           [Emit [97]%N; Edit [98]%N 1 Normal [] [62]%N; Emit [99]%N; Emit [100]%N] [] 4 2 1).
  simpl. lia.
Defined.
